(** * SSP scenario download notebook (api_SSP_Korea.ipynb)

    A shallow embedding of the notebook's code cells: the static tables,
    the period list, the URL and file-name templates and the sequential
    download loop, run against an explicit world (file system, network
    answers, progress bar, console). *)

From Stdlib Require Import ZArith Strings.Ascii Strings.String Strings.Byte DecimalString.
From stdpp Require Import gmap strings list fin_maps.

Local Open Scope string_scope.
Local Open Scope Z_scope.

(** ** Python built-ins used by the notebook *)

(** [str(n)] on an [int]. *)
Definition str (n : Z) : string := NilZero.string_of_int (Z.to_int n).

(** [range(start, stop, step)] for a positive [step]. *)
Definition range (start stop step : Z) : list Z :=
  (λ i : nat, start + step * Z.of_nat i) <$>
    seq 0 (Z.to_nat ((stop - start + step - 1) / step)).

(** [sep.join(l)]. *)
Definition join (sep : string) (l : list string) : string := String.concat sep l.

(** [s.split(sep)] for a one-character separator: the fields between the
    occurrences of [c], empty fields kept. *)
Fixpoint split (c : ascii) (s : string) : list string :=
  match s with
  | EmptyString => [EmptyString]
  | String a s' =>
      if Ascii.eqb a c then EmptyString :: split c s'
      else match split c s' with
           | [] => [String a EmptyString]
           | f :: fs => String a f :: fs
           end
  end.

(** ** Cell 1 and 2: settings *)

Module Notebook.

Definition save_dir : string := "/Users/lsj/NAS/SSP/South_Korea".

Definition base_url : string :=
  "https://apihub-org.kma.go.kr/api/typ01/url/ssp_skorea_file_down.php".

Definition auth_key : string := "Or595fRNRNq-feX0TVTa7w".

(** Python dictionaries keep insertion order; [items()] walks them in that
    order, so the two tables are association lists. *)
Definition ssp_scenarios : list (string * string) :=
  [ ("SSP1_2.6", "SSP126");
    ("SSP2_4.5", "SSP245");
    ("SSP3_7.0", "SSP370");
    ("SSP5_8.5", "SSP585") ].

Definition basic_elements : list (string * string) :=
  [ ("avg_temp", "TA");
    ("max_temp", "TAMAX");
    ("min_temp", "TAMIN");
    ("precip", "RN");
    ("rh", "RHM");
    ("avg_wind_speed", "WS");
    ("sol_rad", "SI") ].

Definition model : string := "5ENSMN".
Definition grid : string := "gridraw".
Definition time_rsltn : string := "daily".
Definition frmat : string := "nc".

Record period := { st_year : string; ed_year : string }.

(** [for year_start in range(2021, 2100, 10): periods.append(...)] *)
Definition periods : list period :=
  (λ year_start,
     let year_end := year_start + 9 in
     {| st_year := str year_start; ed_year := str year_end |})
  <$> range 2021 2100 10.

End Notebook.

(** ** Cell 3: one iteration of the triple loop *)

(** The two values the notebook leaves to its user. *)
Record config := { save_dir : string; auth_key : string }.

Definition notebook_config : config :=
  {| save_dir := Notebook.save_dir; auth_key := Notebook.auth_key |}.

(** The variables bound by the three nested [for] headers. *)
Record job := {
  job_period : Notebook.period;
  scenario_label : string;
  rpt_val : string;
  element_label : string;
  elem_val : string
}.

Definition st_year_val (j : job) : string := Notebook.st_year (job_period j).
Definition ed_year_val (j : job) : string := Notebook.ed_year (job_period j).

(** The iterations of
    [for period in periods: for ... in ssp_scenarios.items():
     for ... in basic_elements.items()], in execution order. *)
Definition jobs_of (ps : list Notebook.period)
    (scs els : list (string * string)) : list job :=
  p ← ps; sc ← scs; el ← els;
  [ {| job_period := p;
       scenario_label := sc.1; rpt_val := sc.2;
       element_label := el.1; elem_val := el.2 |} ].

Definition jobs : list job :=
  jobs_of Notebook.periods Notebook.ssp_scenarios Notebook.basic_elements.

(** [len(periods) * len(ssp_scenarios) * len(basic_elements)] *)
Definition total_tasks : nat :=
  (length Notebook.periods * length Notebook.ssp_scenarios
   * length Notebook.basic_elements)%nat.

Definition params (c : config) (j : job) : list (string * string) :=
  [ ("rpt", rpt_val j);
    ("model", Notebook.model);
    ("elem", elem_val j);
    ("grid", Notebook.grid);
    ("time_rsltn", Notebook.time_rsltn);
    ("st_year", st_year_val j);
    ("ed_year", ed_year_val j);
    ("frmat", Notebook.frmat);
    ("authKey", auth_key c) ].

(** ["&".join([f"{key}={value}" for key, value in params.items()])] *)
Definition query_string (c : config) (j : job) : string :=
  join "&" ((λ kv : string * string, kv.1 ++ "=" ++ kv.2) <$> params c j).

Definition api_url (c : config) (j : job) : string :=
  Notebook.base_url ++ "?" ++ query_string c j.

Definition file_name (j : job) : string :=
  rpt_val j ++ "_" ++ element_label j ++ "_daily_" ++ st_year_val j
    ++ "_" ++ ed_year_val j ++ ".tar.gz".


(** ** The world the cell runs in *)

Definition bytes := list byte.

(** A path names a directory or a regular file.  Paths are resolved from
    the root; a relative path is taken relative to it, and [.], [..] and
    links are not interpreted. *)
Inductive node := Dir | File (content : bytes).

Definition components (path : string) : list string :=
  filter (λ s, s ≠ "") (split "/" path).

Definition lookup_node (fs : gmap (list string) node) (cs : list string)
    : option node :=
  match cs with [] => Some Dir | _ => fs !! cs end.

(** What the server and the connection do to one request.  [body] is the
    body as it reaches the HTTP layer, before that layer compares it with
    the announced length; a response that has no body by its status has
    [body = []].  The body is sent as it is: its end is marked by the
    announced length or by the end of the connection, and no transfer or
    content encoding is applied to it.  The two messages are [str(e)] of
    the request exception raised when reading stops early: [stream_error]
    when the connection fails after the bytes of [body],
    [incomplete_read] when it closes after them although more were
    announced. *)
Record response := {
  status_code : Z;
  reason : string;
  url : string;                      (* [response.url] *)
  content_length : option string;    (* [response.headers.get('content-length')] *)
  body : bytes;
  stream_error : option string;
  incomplete_read : string
}.

Inductive get_result :=
| GetRaises (msg : string)           (* ConnectionError, Timeout, ... *)
| GetReturns (r : response).

(** The answer to the [i]-th request of the run, sent to [u]. *)
Definition network := nat → string → get_result.

Inductive exn :=
| RequestException (msg : string)    (* and its subclasses; [str(e)] *)
| ValueError (literal : string)      (* the string [int] refused *)
| OSError (filename : list string)   (* [e.filename], resolved *)
| OverflowError.                     (* an [int] too large for a [float] *)

(** The text [f'{round(d/(1024*1024), 2)}/{round(n/(1024*1024), 2)} MB'],
    kept as the two byte counts it is made from. *)
Record size_text := MB { mb_downloaded : Z; mb_total : Z }.

Inductive event :=
| EvBar (total : nat) (desc : string)
| EvGet (u : string)
| EvOpen (path : string)
| EvWrite (path : string) (data : bytes)
| EvPostfix (file : string) (size : size_text)
| EvPrint (line : string)
| EvUpdate (n : nat).

Record world := {
  fs : gmap (list string) node;
  sent : nat;                              (* requests issued so far *)
  pbar_n : nat;                            (* [pbar.n] *)
  trace : list event                       (* what has happened, oldest first *)
}.

Definition start (fs0 : gmap (list string) node) : world :=
  {| fs := fs0; sent := 0; pbar_n := 0; trace := [] |}.

Definition set_fs (f : gmap (list string) node) (w : world) : world :=
  {| fs := f; sent := sent w; pbar_n := pbar_n w; trace := trace w |}.

Definition emit (e : event) (w : world) : world :=
  {| fs := fs w; sent := sent w; pbar_n := pbar_n w;
     trace := (trace w ++ [e])%list |}.

(** ** A state monad with Python exceptions *)

Inductive result (A : Type) := Ok (a : A) | Raise (e : exn).
Arguments Ok {A} a.
Arguments Raise {A} e.

Definition M (A : Type) : Type := world → result A * world.

Definition ret {A} (a : A) : M A := λ w, (Ok a, w).
Definition raise {A} (e : exn) : M A := λ w, (Raise e, w).
Definition bind {A B} (m : M A) (k : A → M B) : M B :=
  λ w, match m w with
       | (Ok a, w') => k a w'
       | (Raise e, w') => (Raise e, w')
       end.

Declare Scope py_scope.
Delimit Scope py_scope with py.
Notation "x <- m ;; k" := (bind m (λ x, k))
  (at level 100, m at next level, right associativity) : py_scope.
Notation "m ;; k" := (bind m (λ _, k))
  (at level 100, right associativity) : py_scope.
Local Open Scope py_scope.

(** [try: m  except requests.exceptions.RequestException as e: h(str(e))] *)
Definition try_except_RequestException (m : M unit) (h : string → M unit)
    : M unit :=
  λ w, match m w with
       | (Raise (RequestException msg), w') => h msg w'
       | r => r
       end.

(** [for x in l: body(x)] *)
Fixpoint for_ {A} (l : list A) (body : A → M unit) : M unit :=
  match l with
  | [] => ret tt
  | x :: l' => body x ;; for_ l' body
  end.

(** ** The library calls of cell 3 *)

(** *** [int(...)] on a header value *)

(** The white space [int] drops at both ends of a header value (Latin-1
    text): tab, line feed, vertical tab, form feed, carriage return,
    space, U+0085 and U+00A0.  The separators U+001C to U+001F are not
    dropped. *)
Definition is_space (a : ascii) : bool :=
  let n := N_of_ascii a in
  ((9 <=? n) && (n <=? 13) || (n =? 32) || (n =? 133) || (n =? 160))%N.

Definition digit (a : ascii) : option Z :=
  let n := Z.of_N (N_of_ascii a) in
  if (48 <=? n) && (n <=? 57) then Some (n - 48) else None.

Fixpoint lstrip (s : string) : string :=
  match s with
  | String a s' => if is_space a then lstrip s' else s
  | EmptyString => EmptyString
  end.

Definition rev_string (s : string) : string :=
  string_of_list_ascii (rev (list_ascii_of_string s)).

Definition strip (s : string) : string :=
  rev_string (lstrip (rev_string (lstrip s))).

(** Decimal digits, single underscores allowed between two digits only:
    the value read and the number of digits. *)
Fixpoint int_digits (s : string) (acc : Z) (count : nat) (prev_us : bool)
    : option (Z * nat) :=
  match s with
  | EmptyString => if prev_us then None else Some (acc, count)
  | String a s' =>
      if Ascii.eqb a "_" then
        if prev_us || Nat.eqb count 0 then None
        else int_digits s' acc count true
      else match digit a with
           | Some d => int_digits s' (10 * acc + d) (S count) false
           | None => None
           end
  end.

(** [int(s)] for a [str]: [None] is [ValueError].  Surrounding white space
    is dropped, a sign may come first, and more than 4300 digits are
    refused (the interpreter's default limit). *)
Definition int_of_str (s : string) : option Z :=
  let t := strip s in
  let '(neg, u) :=
    match t with
    | String "-" u => (true, u)
    | String "+" u => (false, u)
    | _ => (false, t)
    end in
  match int_digits u 0 0 false with
  | Some (v, count) =>
      if Nat.eqb count 0 || Nat.ltb 4300 count then None
      else Some (if neg : bool then - v else v)
  | None => None
  end.

(** [response.headers.get('content-length', 0)]: the header, or the
    integer default. *)
Definition headers_get_content_length (r : response) : string + Z :=
  match content_length r with Some s => inl s | None => inr 0 end.

Definition int (v : string + Z) : M Z :=
  match v with
  | inr n => ret n
  | inl s => match int_of_str s with
             | Some n => ret n
             | None => raise (ValueError s)
             end
  end.

(** *** [os.path.join], [os.makedirs], [open], [f.write] *)

Fixpoint ends_with_sep (s : string) : bool :=
  match s with
  | EmptyString => false
  | String a EmptyString => Ascii.eqb a "/"
  | String _ s' => ends_with_sep s'
  end.

Definition os_path_join (a b : string) : string :=
  if String.prefix "/" b then b
  else if String.eqb a "" || ends_with_sep a then a ++ b
  else a ++ "/" ++ b.

(** [os.makedirs(name, exist_ok=True)]: every missing directory on the way
    down to [name] is created; a regular file on the way is an error, and
    so is the empty name. *)
Fixpoint mkdirs (f : gmap (list string) node) (pre rest : list string)
    : option (gmap (list string) node) :=
  match rest with
  | [] => Some f
  | c :: rest' =>
      let p := (pre ++ [c])%list in
      match f !! p with
      | None => mkdirs (<[p := Dir]> f) p rest'
      | Some Dir => mkdirs f p rest'
      | Some (File _) => None
      end
  end.

(** The path [mkdir] refuses when a regular file is on the way: the
    file's own path when it sits at the end, the next path below it
    otherwise. *)
Fixpoint unusable (f : gmap (list string) node) (pre rest : list string)
    : list string :=
  match rest with
  | [] => pre
  | c :: rest' =>
      let p := (pre ++ [c])%list in
      match f !! p with
      | Some (File _) =>
          match rest' with [] => p | c' :: _ => (p ++ [c'])%list end
      | _ => unusable f p rest'
      end
  end.

Definition os_makedirs (name : string) : M unit := λ w,
  if String.eqb name "" then (Raise (OSError []), w)
  else match mkdirs (fs w) [] (components name) with
       | Some f => (Ok tt, set_fs f w)
       | None => (Raise (OSError (unusable (fs w) [] (components name))), w)
       end.

(** [open(path, 'wb')]: the directory of [path] must exist and [path] must
    not be a directory; the file is created, or emptied when it exists.
    The handle is the resolved path. *)
Definition open_wb (path : string) : M (list string) := λ w,
  let cs := components path in
  match lookup_node (fs w) (removelast cs), lookup_node (fs w) cs with
  | Some Dir, Some Dir => (Raise (OSError cs), w)
  | Some Dir, _ =>
      (Ok cs, emit (EvOpen path) (set_fs (<[cs := File []]> (fs w)) w))
  | _, _ => (Raise (OSError cs), w)
  end.

Definition file_content (f : gmap (list string) node) (cs : list string)
    : bytes :=
  match f !! cs with Some (File old) => old | _ => [] end.

(** [f.write(data)] appends to the open file. *)
Definition f_write (path : string) (h : list string) (data : bytes)
    : M unit := λ w,
  (Ok tt,
   emit (EvWrite path data)
     (set_fs (<[h := File (file_content (fs w) h ++ data)%list]> (fs w)) w)).

(** *** [requests] *)

Definition requests_get (net : network) (u : string) : M response := λ w,
  let w' :=
    emit (EvGet u)
      {| fs := fs w; sent := S (sent w); pbar_n := pbar_n w;
         trace := trace w |} in
  match net (sent w) u with
  | GetRaises msg => (Raise (RequestException msg), w')
  | GetReturns r => (Ok r, w')
  end.

(** [response.ok] is false, and [raise_for_status] raises [HTTPError],
    for the 4xx and 5xx codes. *)
Definition ok (r : response) : bool :=
  negb ((400 <=? status_code r) && (status_code r <? 600)).

Definition http_error_msg (r : response) : string :=
  if (400 <=? status_code r) && (status_code r <? 500) then
    str (status_code r) ++ " Client Error: " ++ reason r
    ++ " for url: " ++ url r
  else if (500 <=? status_code r) && (status_code r <? 600) then
    str (status_code r) ++ " Server Error: " ++ reason r
    ++ " for url: " ++ url r
  else "".

Definition raise_for_status (r : response) : M unit :=
  if String.eqb (http_error_msg r) "" then ret tt
  else raise (RequestException (http_error_msg r)).

(** The pieces of [l], [n] items each, the last one possibly shorter. *)
Fixpoint chunks_fuel {A} (fuel n : nat) (l : list A) : list (list A) :=
  match fuel, l with
  | S fuel', _ :: _ => take n l :: chunks_fuel fuel' n (drop n l)
  | _, _ => []
  end.

Definition chunks {A} (n : nat) (l : list A) : list (list A) :=
  chunks_fuel (length l) n l.

(** The pieces of [n] items that [l] holds whole. *)
Definition whole_chunks {A} (n : nat) (l : list A) : list (list A) :=
  chunks n (take (n * (length l / n)) l).

(** The length the HTTP layer enforces: the header's, when [int] reads it
    and it is not negative. *)
Definition announced (r : response) : option Z :=
  match content_length r with
  | Some s =>
      match int_of_str s with
      | Some n => if 0 <=? n then Some n else None
      | None => None
      end
  | None => None
  end.

(** What reading the body gives: the bytes handed over, and the message
    of the request exception that ends the reading, if one does.  With an
    announced length no more than that many bytes are read, and fewer are
    an error; without one the body is read until the connection ends. *)
Definition stream (r : response) : bytes * option string :=
  match announced r with
  | Some n =>
      if n <=? Z.of_nat (length (body r))
      then (take (Z.to_nat n) (body r), None)
      else (body r,
            Some (match stream_error r with
                  | Some msg => msg
                  | None => incomplete_read r
                  end))
  | None => (body r, stream_error r)
  end.

(** [response.content]: everything read, or the exception. *)
Definition response_content (r : response) : M bytes :=
  match (stream r).2 with
  | Some msg => raise (RequestException msg)
  | None => ret (stream r).1
  end.

(** A generator: the items it yields, then the exception that ends it,
    if any. *)
Definition generator (A : Type) : Type := list A * option exn.

(** [response.iter_content(chunk_size)]: pieces of [chunk_size] bytes,
    the last one shorter when the body ends there; when reading ends with
    an exception only whole pieces have been yielded before it. *)
Definition iter_content (chunk_size : nat) (r : response) : generator bytes :=
  match (stream r).2 with
  | Some msg =>
      (whole_chunks chunk_size (stream r).1, Some (RequestException msg))
  | None => (chunks chunk_size (stream r).1, None)
  end.

(** [for x in g: s = body(x, s)], [s] standing for the local variables the
    loop body assigns. *)
Fixpoint for_acc {A S} (l : list A) (s : S) (body : A → S → M S) : M S :=
  match l with
  | [] => ret s
  | x :: l' => s' <- body x s ;; for_acc l' s' body
  end.

Definition for_gen {A S} (g : generator A) (s : S) (body : A → S → M S)
    : M S :=
  s' <- for_acc g.1 s body ;;
  match g.2 with
  | Some e => raise e
  | None => ret s'
  end.

(** *** [tqdm] *)

(** [tqdm(total=..., desc=...)]: a new bar, at zero. *)
Definition tqdm (total : nat) (desc : string) : M unit := λ w,
  (Ok tt,
   emit (EvBar total desc)
     {| fs := fs w; sent := sent w; pbar_n := 0; trace := trace w |}).

(** [n / (1024*1024)] raises [OverflowError] when the quotient, rounded
    to a [float], is not finite. *)
Definition overflows (n : Z) : bool := 2 ^ 1044 - 2 ^ 990 <=? Z.abs n.

(** [f'{round(downloaded/(1024*1024), 2)}/{round(total_size/(1024*1024), 2)} MB'] *)
Definition size_fstring (downloaded total_size : Z) : M size_text :=
  if overflows downloaded || overflows total_size then raise OverflowError
  else ret (MB downloaded total_size).

Definition pbar_set_postfix (file : string) (size : size_text) : M unit := λ w,
  (Ok tt, emit (EvPostfix file size) w).

Definition pbar_update (k : nat) : M unit := λ w,
  (Ok tt,
   emit (EvUpdate (pbar_n w + k))
     {| fs := fs w; sent := sent w; pbar_n := (pbar_n w + k)%nat;
        trace := trace w |}).

Definition tqdm_write (line : string) : M unit := λ w,
  (Ok tt, emit (EvPrint line) w).

(** [a / b] rounded to the nearest integer, ties to the even one
    ([b] positive). *)
Definition round_half_even (a b : Z) : Z :=
  let q := a / b in
  let r := a mod b in
  if 2 * r <? b then q
  else if b <? 2 * r then q + 1
  else if Z.even q then q else q + 1.

(** The characters of [f'{round(n/(1024*1024), 2)}'] for [|n| < 2^53]:
    there the float quotient is exact, [round] rounds its exact value
    half-to-even to two decimals, and the f-string prints the shortest
    decimal of the result (at least one digit after the point, no trailing
    zero beyond it).  From [2^53] on the quotient is rounded first and the
    characters are not worked out here. *)
Definition mb_str (n : Z) : option string :=
  if Z.abs n <? 2 ^ 53 then
    let h := round_half_even (100 * Z.abs n) (1024 * 1024) in
    let frac := h mod 100 in
    Some ((if n <? 0 then "-" else "") ++ str (h / 100) ++ "."
          ++ (if frac mod 10 =? 0 then str (frac / 10)
              else if frac <? 10 then "0" ++ str frac
              else str frac))
  else None.

(** The characters of a [size_text], where both counts are below
    [2^53]. *)
Definition characters (s : size_text) : option string :=
  match mb_str (mb_downloaded s), mb_str (mb_total s) with
  | Some a, Some b => Some (a ++ "/" ++ b ++ " MB")
  | _, _ => None
  end.

(** ** Cell 3: the download loop *)

(** The body of the innermost [for].  The request is made with
    [stream=True]: the body arrives, and the connection can fail, when
    [content] or [iter_content] is read.  Leaving the [with open] block
    closes the file, which changes nothing here. *)
Definition file_path (c : config) (j : job) : string :=
  os_path_join (save_dir c) (file_name j).

Definition download (c : config) (net : network) (j : job) : M unit :=
  let api_url := api_url c j in
  let file_name := file_name j in
  let file_path := file_path c j in
  try_except_RequestException
    (response <- requests_get net api_url ;;
     raise_for_status response ;;
     total_size <- int (headers_get_content_length response) ;;
     f <- open_wb file_path ;;
     if total_size =? 0 then
       content <- response_content response ;;
       f_write file_path f content
     else
       for_gen (iter_content 4096 response) 0
         (λ data downloaded,
            let downloaded := downloaded + Z.of_nat (length data) in
            f_write file_path f data ;;
            size <- size_fstring downloaded total_size ;;
            pbar_set_postfix file_name size ;;
            ret downloaded) ;;
       ret tt)
    (λ e, tqdm_write ("Download failed: " ++ file_name ++ " - " ++ e)) ;;
  pbar_update 1.

Definition run (c : config) (net : network) : M unit :=
  os_makedirs (save_dir c) ;;
  tqdm total_tasks "Download Progress" ;;
  for_ Notebook.periods (λ period,
    for_ Notebook.ssp_scenarios (λ sc,
      for_ Notebook.basic_elements (λ el,
        download c net
          {| job_period := period;
             scenario_label := sc.1; rpt_val := sc.2;
             element_label := el.1; elem_val := el.2 |}))).

(** *** Reading a trace *)

Definition gets (t : list event) : list string :=
  omap (λ e, match e with EvGet u => Some u | _ => None end) t.

Definition writes (t : list event) : list (string * bytes) :=
  omap (λ e, match e with EvWrite p d => Some (p, d) | _ => None end) t.

Definition postfixes (t : list event) : list (string * size_text) :=
  omap (λ e, match e with EvPostfix f s => Some (f, s) | _ => None end) t.

Definition prints (t : list event) : list string :=
  omap (λ e, match e with EvPrint l => Some l | _ => None end) t.

Definition updates (t : list event) : list nat :=
  omap (λ e, match e with EvUpdate n => Some n | _ => None end) t.

(** What the bar shows after the rate: the last postfix set, if any. *)
Definition pbar_postfix (w : world) : option (string * size_text) :=
  last (postfixes (trace w)).

(** ** Vocabulary of the statements *)

#[local] Instance period_eq_dec : EqDecision Notebook.period.
Proof. solve_decision. Defined.

#[local] Instance job_eq_dec : EqDecision job.
Proof. solve_decision. Defined.

(** What the values of a table job look like: no [&] in what goes into
    the query, and a file name that is a single path component. *)
Definition table_job (j : job) : Prop :=
  split "&" (rpt_val j) = [rpt_val j] ∧
  split "&" (elem_val j) = [elem_val j] ∧
  split "&" (st_year_val j) = [st_year_val j] ∧
  split "&" (ed_year_val j) = [ed_year_val j] ∧
  components (file_name j) = [file_name j] ∧
  String.prefix "/" (file_name j) = false.

(** The resolved path of a job's output file. *)
Definition handle (c : config) (j : job) : list string :=
  components (file_path c j).

(** The line printed when a job's request fails with message [msg]. *)
Definition failure_line (j : job) (msg : string) : string :=
  "Download failed: " ++ file_name j ++ " - " ++ msg.

(** What the chunk loop does for the chunks [cs], [d] bytes being already
    counted: a write and a postfix per chunk. *)
Fixpoint chunk_events (path file : string) (total d : Z) (cs : list bytes)
    : list event :=
  match cs with
  | [] => []
  | data :: cs' =>
      let d' := d + Z.of_nat (length data) in
      EvWrite path data
      :: EvPostfix file (MB d' total)
      :: chunk_events path file total d' cs'
  end.

(** The world in which the loop starts: the directories made, the bar
    just created. *)
Definition bar_world (f : gmap (list string) node) : world :=
  {| fs := f; sent := 0; pbar_n := 0;
     trace := [EvBar total_tasks "Download Progress"] |}.

(** The world after a job that ran to its end: one more request sent, the
    counter advanced by one, the job's events and the update appended. *)
Definition finish (w : world) (f : gmap (list string) node)
    (evs : list event) : world :=
  {| fs := f; sent := S (sent w); pbar_n := (pbar_n w + 1)%nat;
     trace := (trace w ++ evs ++ [EvUpdate (pbar_n w + 1)])%list |}.

(** The world after a job that stopped at an exception nobody caught:
    the request is sent, the counter is not advanced. *)
Definition interrupt (w : world) (f : gmap (list string) node)
    (evs : list event) : world :=
  {| fs := f; sent := S (sent w); pbar_n := pbar_n w;
     trace := (trace w ++ evs)%list |}.

(** The same when the job stopped before it opened its file. *)
Definition abandon (w : world) (evs : list event) : world :=
  interrupt w (fs w) evs.

(** [open(path, 'wb')] succeeds in [f]. *)
Definition can_open (f : gmap (list string) node) (cs : list string) : Prop :=
  lookup_node f (removelast cs) = Some Dir ∧ lookup_node f cs ≠ Some Dir.

(** The value [total_size] gets for a response, if [int] accepts the
    header. *)
Definition total_size_of (r : response) : option Z :=
  match content_length r with
  | Some s => int_of_str s
  | None => Some 0
  end.



Definition store (f : gmap (list string) node) (cs : list string)
    (b : option bytes) : gmap (list string) node :=
  match b with Some b => <[cs := File b]> f | None => f end.





(** ** Sample inputs *)

(** A plain 200 answer. *)
Definition ok_resp (cl : option string) (b : bytes) : response :=
  {| status_code := 200; reason := "OK"; url := ""; content_length := cl;
     body := b; stream_error := None; incomplete_read := "IncompleteRead" |}.

Definition not_found (u : string) : response :=
  {| status_code := 404; reason := "Not Found"; url := u;
     content_length := None; body := []; stream_error := None;
     incomplete_read := "IncompleteRead" |}.

Definition sample_config : config :=
  {| save_dir := "/data/ssp"; auth_key := "KEY" |}.

(** The first and the second job of the run. *)
Definition job0 : job :=
  {| job_period := {| Notebook.st_year := "2021"; Notebook.ed_year := "2030" |};
     scenario_label := "SSP1_2.6"; rpt_val := "SSP126";
     element_label := "avg_temp"; elem_val := "TA" |}.

Definition job1 : job :=
  {| job_period := {| Notebook.st_year := "2021"; Notebook.ed_year := "2030" |};
     scenario_label := "SSP1_2.6"; rpt_val := "SSP126";
     element_label := "max_temp"; elem_val := "TAMAX" |}.

(** The output directory exists and is empty. *)
Definition sample_fs : gmap (list string) node :=
  {[ ["data"] := Dir; ["data"; "ssp"] := Dir ]}.

(** The output directory holds a stale, truncated file of a previous
    run. *)
Definition stale_fs : gmap (list string) node :=
  <[ ["data"; "ssp"; "SSP126_avg_temp_daily_2021_2030.tar.gz"] :=
       File [x01; x02] ]> sample_fs.


Definition sample_body : bytes := [x1f; x8b; x08; x00; x00].

(** Every request is answered with the same five bytes, no length
    announced. *)
Definition net_plain : network :=
  λ _ _, GetReturns (ok_resp None sample_body).

(** The same with the length announced. *)
Definition net_sized : network :=
  λ _ _, GetReturns (ok_resp (Some "5") sample_body).

(** The second request is answered 404. *)
Definition net_one_404 : network :=
  λ i u, match i with
         | 1%nat => GetReturns (not_found u)
         | _ => GetReturns (ok_resp None sample_body)
         end.


(** 5000 bytes. *)
Definition long_body : bytes := replicate 5000 x00.

(** A length of 320 digits. *)
Definition huge_length : string :=
  string_of_list_ascii (replicate 320 "9"%char).

(** The second request is answered with that length announced. *)
Definition net_huge : network :=
  λ i u, match i with
         | 1%nat => GetReturns (ok_resp (Some huge_length) long_body)
         | _ => GetReturns (ok_resp None sample_body)
         end.




(** No connection can be made. *)
Definition net_down : network := λ _ _, GetRaises "Connection refused".


(** * Properties *)

(** ** The model on concrete inputs *)

Example int_of_str_examples :
  int_of_str <$> ["204"; " 1_000 "; "-5"; "+07"; "abc"; ""; "1__0"; "_1"; "1_"]
  = [Some 204; Some 1000; Some (-5); Some 7; None; None; None; None; None].
Proof. reflexivity. Qed.

(** White space at the ends: U+00A0 is dropped, U+001C and U+001F are
    not. *)
Example int_of_str_spaces :
  int_of_str <$> [String (ascii_of_nat 160) "5";
                  String (ascii_of_nat 28) "5";
                  String "5" (String (ascii_of_nat 31) "")]
  = [Some 5; None; None].
Proof. reflexivity. Qed.

Example mb_str_examples :
  mb_str <$> [0; 5; 131072; 1048576; 1572864; 76032246; 213919990;
              2 ^ 53 - 1; 2 ^ 53]
  = [Some "0.0"; Some "0.0"; Some "0.12"; Some "1.0"; Some "1.5";
     Some "72.51"; Some "204.01"; Some "8589934592.0"; None].
Proof. reflexivity. Qed.

(** The bar of the recorded run stands at 26 of 224 while it shows this
    file name: it is the name of the job at index 26. *)
Example recorded_file_name :
  file_name <$> jobs !! 26%nat
  = Some "SSP585_avg_wind_speed_daily_2021_2030.tar.gz".
Proof. reflexivity. Qed.

Example first_api_url :
  api_url notebook_config <$> head jobs
  = Some ("https://apihub-org.kma.go.kr/api/typ01/url/ssp_skorea_file_down.php"
          ++ "?rpt=SSP126&model=5ENSMN&elem=TA&grid=gridraw&time_rsltn=daily"
          ++ "&st_year=2021&ed_year=2030&frmat=nc"
          ++ "&authKey=Or595fRNRNq-feX0TVTa7w").
Proof. reflexivity. Qed.

Example chunks_example :
  length <$> chunks 4096 (replicate 4500 x00) = [4096; 404]%nat.
Proof. by vm_compute. Qed.

Example two_jobs_trace :
  (for_ [job0; job1] (download sample_config net_one_404)
     (bar_world sample_fs)).2.(trace)
  = [ EvBar 224 "Download Progress";
      EvGet (api_url sample_config job0);
      EvOpen "/data/ssp/SSP126_avg_temp_daily_2021_2030.tar.gz";
      EvWrite "/data/ssp/SSP126_avg_temp_daily_2021_2030.tar.gz" sample_body;
      EvUpdate 1;
      EvGet (api_url sample_config job1);
      EvPrint ("Download failed: SSP126_max_temp_daily_2021_2030.tar.gz - "
               ++ "404 Client Error: Not Found for url: "
               ++ api_url sample_config job1);
      EvUpdate 2 ].
Proof. by vm_compute. Qed.

(** ** Strings *)

Lemma split_nonempty c s : split c s ≠ [].
Proof.
  destruct s as [|a s]; simpl; [done|].
  destruct (Ascii.eqb a c); [done|]. by destruct (split c s).
Qed.

Lemma split_app_sep c a b :
  split c (a ++ String c b) = (split c a ++ split c b)%list.
Proof.
  induction a as [|x a IH]; simpl.
  - by rewrite Ascii.eqb_refl.
  - destruct (Ascii.eqb x c); [by rewrite IH|].
    rewrite IH. pose proof (split_nonempty c a).
    by destruct (split c a).
Qed.

Lemma split_single_inv c x s :
  split c (String x s) = [String x s] → Ascii.eqb x c = false ∧ split c s = [s].
Proof.
  simpl. destruct (Ascii.eqb x c).
  - pose proof (split_nonempty c s). destruct (split c s); [done|]. discriminate.
  - pose proof (split_nonempty c s).
    destruct (split c s) as [|f fs]; [done|]. intros [= -> ->]. done.
Qed.

Lemma split_single_app c a b :
  split c a = [a] → split c b = [b] → split c (a ++ b) = [a ++ b].
Proof.
  induction a as [|x a IH]; [done|]. intros Ha Hb.
  apply split_single_inv in Ha as [Hx Ha].
  change (String x a ++ b) with (String x (a ++ b)).
  change (split c (String x (a ++ b)))
    with (if Ascii.eqb x c then EmptyString :: split c (a ++ b)
          else match split c (a ++ b) with | [] => [String x EmptyString]
                                           | f :: fs => String x f :: fs end).
  by rewrite Hx, IH.
Qed.

Lemma split_join c l :
  Forall (λ x, split c x = [x]) l → l ≠ [] →
  split c (join (String c EmptyString) l) = l.
Proof.
  induction 1 as [|x l Hx Hl IH]; [done|]. intros _.
  destruct l as [|y l]; [done|].
  change (join (String c EmptyString) (x :: y :: l))
    with (x ++ String c EmptyString ++ join (String c EmptyString) (y :: l)).
  change (String c EmptyString ++ ?t) with (String c t).
  rewrite split_app_sep, Hx. by rewrite IH.
Qed.

(** ** The job list *)


Lemma total_tasks_jobs : total_tasks = length jobs.
Proof. reflexivity. Qed.

Lemma jobs_table_job : Forall table_job jobs.
Proof. apply (bool_decide_unpack _). by vm_compute. Qed.

Lemma NoDup_file_names : NoDup (file_name <$> jobs).
Proof. apply (bool_decide_unpack _). by vm_compute. Qed.

Lemma jobs_from_tables :
  Forall (λ j, job_period j ∈ Notebook.periods ∧
               (scenario_label j, rpt_val j) ∈ Notebook.ssp_scenarios ∧
               (element_label j, elem_val j) ∈ Notebook.basic_elements) jobs.
Proof. apply (bool_decide_unpack _). by vm_compute. Qed.

(** ** The request URL *)

(** C1: for every job of the static tables the URL is the base endpoint,
    [?], and the query string; the query string has exactly the nine
    fields rpt, model, elem, grid, time_rsltn, st_year, ed_year, frmat and
    authKey, in this order, carrying the job's scenario code, element code
    and year strings, the constants 5ENSMN, gridraw, daily and nc, and the
    token (a token without [&], so that it cannot add a field). *)
Theorem api_url_nine_params (c : config) (j : job) :
  j ∈ jobs →
  split "&" (auth_key c) = [auth_key c] →
  (job_period j ∈ Notebook.periods ∧
   (scenario_label j, rpt_val j) ∈ Notebook.ssp_scenarios ∧
   (element_label j, elem_val j) ∈ Notebook.basic_elements) ∧
  params c j =
    [ ("rpt", rpt_val j); ("model", "5ENSMN"); ("elem", elem_val j);
      ("grid", "gridraw"); ("time_rsltn", "daily");
      ("st_year", Notebook.st_year (job_period j));
      ("ed_year", Notebook.ed_year (job_period j));
      ("frmat", "nc"); ("authKey", auth_key c) ] ∧
  api_url c j =
    "https://apihub-org.kma.go.kr/api/typ01/url/ssp_skorea_file_down.php"
    ++ "?rpt=" ++ rpt_val j ++ "&model=5ENSMN&elem=" ++ elem_val j
    ++ "&grid=gridraw&time_rsltn=daily&st_year="
    ++ Notebook.st_year (job_period j)
    ++ "&ed_year=" ++ Notebook.ed_year (job_period j)
    ++ "&frmat=nc&authKey=" ++ auth_key c ∧
  split "?" Notebook.base_url = [Notebook.base_url] ∧
  split "&" (query_string c j) =
    [ "rpt=" ++ rpt_val j; "model=5ENSMN"; "elem=" ++ elem_val j;
      "grid=gridraw"; "time_rsltn=daily";
      "st_year=" ++ Notebook.st_year (job_period j);
      "ed_year=" ++ Notebook.ed_year (job_period j);
      "frmat=nc"; "authKey=" ++ auth_key c ].
Proof.
  intros Hj Hkey.
  pose proof (proj1 (Forall_forall _ _) jobs_from_tables j Hj) as Htab.
  pose proof (proj1 (Forall_forall _ _) jobs_table_job j Hj)
    as (Hr & He & Hs & Hd & _).
  split; [exact Htab|]. split; [reflexivity|]. split; [reflexivity|].
  split; [reflexivity|].
  unfold query_string. rewrite split_join; [reflexivity| |done].
  unfold st_year_val, ed_year_val in *.
  repeat apply Forall_cons_2; try apply Forall_nil_2; try reflexivity;
    cbn [fst snd]; by repeat apply split_single_app.
Qed.

Lemma api_url_nine_params_witness :
  split "&" (query_string notebook_config
               {| job_period :=
                    {| Notebook.st_year := "2021"; Notebook.ed_year := "2030" |};
                  scenario_label := "SSP1_2.6"; rpt_val := "SSP126";
                  element_label := "avg_temp"; elem_val := "TA" |}) =
    [ "rpt=SSP126"; "model=5ENSMN"; "elem=TA"; "grid=gridraw";
      "time_rsltn=daily"; "st_year=2021"; "ed_year=2030"; "frmat=nc";
      "authKey=Or595fRNRNq-feX0TVTa7w" ].
Proof.
  refine (proj2 (proj2 (proj2 (proj2
    (api_url_nine_params notebook_config _ _ _))))).
  - apply (bool_decide_unpack _). vm_compute. exact I.
  - reflexivity.
Defined.

(** ** The period list *)

(** C2: the period list has exactly the eight entries that start at 2021,
    2031, ..., 2091, in this order, each holding [str] of its start year
    and of the start year plus nine; every span starts the year after the
    previous one ends, and the last one is (2091, 2100). *)
Theorem periods_eight_decades :
  range 2021 2100 10 = [2021; 2031; 2041; 2051; 2061; 2071; 2081; 2091] ∧
  Notebook.periods =
    (λ year_start, {| Notebook.st_year := str year_start;
                      Notebook.ed_year := str (year_start + 9) |})
    <$> [2021; 2031; 2041; 2051; 2061; 2071; 2081; 2091] ∧
  Notebook.periods =
    [ {| Notebook.st_year := "2021"; Notebook.ed_year := "2030" |};
      {| Notebook.st_year := "2031"; Notebook.ed_year := "2040" |};
      {| Notebook.st_year := "2041"; Notebook.ed_year := "2050" |};
      {| Notebook.st_year := "2051"; Notebook.ed_year := "2060" |};
      {| Notebook.st_year := "2061"; Notebook.ed_year := "2070" |};
      {| Notebook.st_year := "2071"; Notebook.ed_year := "2080" |};
      {| Notebook.st_year := "2081"; Notebook.ed_year := "2090" |};
      {| Notebook.st_year := "2091"; Notebook.ed_year := "2100" |} ] ∧
  length Notebook.periods = 8%nat ∧
  tail (range 2021 2100 10) =
    ((λ year_start, (year_start + 9) + 1) <$> removelast (range 2021 2100 10)) ∧
  last Notebook.periods =
    Some {| Notebook.st_year := str 2091; Notebook.ed_year := str 2100 |}.
Proof. repeat split. Qed.

(** ** File names *)

(** C8: a job's file name is its scenario code, element label, the word
    daily and its two years joined by underscores, with suffix .tar.gz;
    the 224 jobs are pairwise distinct and no two of them have the same
    file name. *)
Theorem file_name_injective (j1 j2 : job) :
  j1 ∈ jobs → j2 ∈ jobs →
  (file_name j1 =
     rpt_val j1 ++ "_" ++ element_label j1 ++ "_daily_"
     ++ Notebook.st_year (job_period j1) ++ "_"
     ++ Notebook.ed_year (job_period j1) ++ ".tar.gz") ∧
  length jobs = 224%nat ∧
  NoDup jobs ∧
  (file_name j1 = file_name j2 → j1 = j2).
Proof.
  intros H1 H2. split; [reflexivity|]. split; [reflexivity|].
  pose proof NoDup_file_names as Hnd.
  split; [by apply NoDup_fmap_1 in Hnd|].
  intros Heq.
  apply list_elem_of_lookup in H1 as [i1 H1].
  apply list_elem_of_lookup in H2 as [i2 H2].
  assert (i1 = i2) as ->; [|congruence].
  eapply NoDup_lookup; [exact Hnd| |].
  - rewrite list_lookup_fmap, H1. reflexivity.
  - rewrite list_lookup_fmap, H2. simpl. by rewrite Heq.
Qed.

Lemma file_name_injective_witness :
  file_name job0 = "SSP126_avg_temp_daily_2021_2030.tar.gz" ∧
  (file_name job0 = file_name job1 → job0 = job1).
Proof.
  destruct (file_name_injective job0 job1) as (Hform & _ & _ & Hinj).
  - apply (bool_decide_unpack _). vm_compute. exact I.
  - apply (bool_decide_unpack _). vm_compute. exact I.
  - split; [exact Hform|exact Hinj].
Defined.

(** ** Paths *)

Lemma components_app_sep a b :
  components (a ++ String "/" b) = (components a ++ components b)%list.
Proof. unfold components. by rewrite split_app_sep, filter_app. Qed.

Lemma ends_with_sep_inv a :
  ends_with_sep a = true → ∃ a', a = a' ++ "/".
Proof.
  induction a as [|x a IH]; [done|]. simpl. destruct a as [|y a].
  - intros ->%Ascii.eqb_eq. by exists "".
  - intros [a' ->]%IH. by exists (String x a').
Qed.

Lemma append_assoc (a b c : string) : (a ++ b) ++ c = a ++ b ++ c.
Proof.
  induction a as [|x a IH]; [done|].
  change (String x ((a ++ b) ++ c) = String x (a ++ b ++ c)). by f_equal.
Qed.

Lemma components_join a b :
  String.prefix "/" b = false → components b = [b] →
  components (os_path_join a b) = (components a ++ [b])%list.
Proof.
  intros Hp Hb. unfold os_path_join. rewrite Hp.
  destruct (String.eqb_spec a "") as [->|_].
  { cbn [orb]. change ("" ++ b) with b. by rewrite Hb. }
  cbn [orb].
  destruct (ends_with_sep a) eqn:He.
  - apply ends_with_sep_inv in He as [a' ->].
    rewrite append_assoc. change ("/" ++ b) with (String "/" b).
    rewrite !components_app_sep, Hb. change (components "") with (@nil string).
    by rewrite app_nil_r.
  - change ("/" ++ b) with (String "/" b). by rewrite components_app_sep, Hb.
Qed.

Lemma handle_table_job c j :
  table_job j → handle c j = (components (save_dir c) ++ [file_name j])%list.
Proof. intros (_ & _ & _ & _ & Hc & Hp). by apply components_join. Qed.

Lemma can_open_handle c j f :
  table_job j →
  lookup_node f (components (save_dir c)) = Some Dir →
  f !! handle c j ≠ Some Dir →
  can_open f (handle c j).
Proof.
  intros Hj Hd Hn. unfold can_open. rewrite handle_table_job in * by done.
  rewrite removelast_last. split; [done|].
  by destruct (components (save_dir c)).
Qed.

(** ** [os.makedirs] *)

Section makedirs.
Local Open Scope list_scope.

Lemma mkdirs_spec rest : ∀ f pre f',
  mkdirs f pre rest = Some f' →
  (∀ i, (0 < i ≤ length rest)%nat → f' !! (pre ++ take i rest) = Some Dir) ∧
  (∀ k, (∀ i, (0 < i ≤ length rest)%nat → k ≠ pre ++ take i rest) →
        f' !! k = f !! k).
Proof.
  induction rest as [|x rest IH]; intros f pre f' H; simpl in H.
  - simplify_eq. split; [simpl; lia|done].
  - assert (∃ f1, mkdirs f1 (pre ++ [x]) rest = Some f' ∧
              f1 !! (pre ++ [x]) = Some Dir ∧
              ∀ k, k ≠ pre ++ [x] → f1 !! k = f !! k) as (f1 & H1 & Hx & Hk).
    { destruct (f !! (pre ++ [x])) as [[|?]|] eqn:E; [|done|].
      - by exists f.
      - exists (<[pre ++ [x] := Dir]> f). split; [done|].
        split; [apply lookup_insert_eq|]. intros k ?. by apply lookup_insert_ne. }
    apply IH in H1 as [Hd Ho]. split.
    + intros [|i] Hi; [lia|]. simpl in *. destruct i as [|i].
      * rewrite take_0, Ho, Hx; [done|]. intros i Hi'.
        intros Heq%(f_equal length). rewrite !length_app, length_take in Heq.
        simpl in Heq. lia.
      * specialize (Hd (S i)). rewrite <- app_assoc in Hd. apply Hd. lia.
    + intros k Hk'. rewrite Ho, Hk; [done| |].
      * specialize (Hk' 1%nat). simpl in Hk'. rewrite take_0 in Hk'.
        apply Hk'. lia.
      * intros i Hi. specialize (Hk' (S i)). simpl in Hk'.
        rewrite <- app_assoc. apply Hk'. lia.
Qed.

Lemma mkdirs_dir f cs f' :
  mkdirs f [] cs = Some f' → lookup_node f' cs = Some Dir.
Proof.
  intros [Hd _]%mkdirs_spec. destruct cs as [|x cs]; [done|].
  specialize (Hd (length (x :: cs))). rewrite firstn_all in Hd.
  apply Hd. simpl. lia.
Qed.


End makedirs.

(** ** The triple loop *)

Section triple_loop.
Local Open Scope list_scope.

Lemma length_bind_uniform {A B} (f : A → list B) (n : nat) (l : list A) :
  (∀ x, length (f x) = n) → length (l ≫= f) = (length l * n)%nat.
Proof.
  intros Hf. induction l as [|x l IH]; [done|].
  change ((x :: l) ≫= f) with (f x ++ (l ≫= f)).
  rewrite length_app, Hf, IH. simpl. lia.
Qed.

Lemma lookup_bind_uniform {A B} (f : A → list B) (n : nat) :
  (∀ x, length (f x) = n) →
  ∀ (l : list A) i k x y,
    l !! i = Some x → f x !! k = Some y →
    (l ≫= f) !! (i * n + k)%nat = Some y.
Proof.
  intros Hf l. induction l as [|x0 l IH]; intros i k x y Hi Hk; [done|].
  change ((x0 :: l) ≫= f) with (f x0 ++ (l ≫= f)).
  destruct i as [|i]; simpl in Hi.
  - injection Hi as ->. simpl. by apply lookup_app_l_Some.
  - rewrite lookup_app_r; rewrite Hf; [|simpl; lia].
    replace (S i * n + k - n)%nat with (i * n + k)%nat by (simpl; lia).
    by eapply IH.
Qed.

Lemma jobs_of_lookup
    (ps : list Notebook.period) (scs els : list (string * string))
    (p s e : nat) (per : Notebook.period) (sc el : string * string) :
  ps !! p = Some per → scs !! s = Some sc → els !! e = Some el →
  jobs_of ps scs els !! ((p * length scs + s) * length els + e)%nat =
    Some {| job_period := per;
            scenario_label := sc.1; rpt_val := sc.2;
            element_label := el.1; elem_val := el.2 |}.
Proof.
  intros Hp Hs He. unfold jobs_of.
  replace ((p * length scs + s) * length els + e)%nat
    with (p * (length scs * length els) + (s * length els + e))%nat by lia.
  eapply (lookup_bind_uniform _ (length scs * length els)); [|exact Hp|].
  { intros x. rewrite (length_bind_uniform _ (length els)); [done|].
    intros y. by rewrite (length_bind_uniform _ 1); [lia|]. }
  eapply (lookup_bind_uniform _ (length els)); [|exact Hs|].
  { intros y. by rewrite (length_bind_uniform _ 1); [lia|]. }
  replace e with (e * 1 + 0)%nat by lia.
  by eapply (lookup_bind_uniform _ 1); [|exact He|].
Qed.

Lemma jobs_lookup_job0 : jobs !! 0%nat = Some job0.
Proof.
  apply (jobs_of_lookup Notebook.periods Notebook.ssp_scenarios
           Notebook.basic_elements 0 0 0
           {| Notebook.st_year := "2021"; Notebook.ed_year := "2030" |}
           ("SSP1_2.6", "SSP126") ("avg_temp", "TA")); reflexivity.
Qed.

Lemma jobs_lookup_job1 : jobs !! 1%nat = Some job1.
Proof.
  apply (jobs_of_lookup Notebook.periods Notebook.ssp_scenarios
           Notebook.basic_elements 0 0 1
           {| Notebook.st_year := "2021"; Notebook.ed_year := "2030" |}
           ("SSP1_2.6", "SSP126") ("max_temp", "TAMAX")); reflexivity.
Qed.

End triple_loop.
(** ** Chunks *)

Lemma concat_chunks_fuel {A} (n : nat) : ∀ fuel (l : list A),
  (0 < n)%nat → (length l ≤ fuel)%nat → concat (chunks_fuel fuel n l) = l.
Proof.
  induction fuel as [|fuel IH]; intros l Hn Hl.
  - destruct l; [done|simpl in Hl; lia].
  - destruct l as [|x l]; [done|].
    change (chunks_fuel (S fuel) n (x :: l))
      with (take n (x :: l) :: chunks_fuel fuel n (drop n (x :: l))).
    simpl concat. rewrite IH; [apply take_drop|done|].
    rewrite length_drop. simpl in *. lia.
Qed.

Lemma concat_chunks {A} (n : nat) (l : list A) :
  (0 < n)%nat → concat (chunks n l) = l.
Proof. intros. by apply concat_chunks_fuel. Qed.

Lemma chunks_fuel_sizes {A} (n : nat) : ∀ fuel (l : list A),
  (0 < n)%nat →
  Forall (λ c, (0 < length c ≤ n)%nat) (chunks_fuel fuel n l) ∧
  Forall (λ c, length c = n) (removelast (chunks_fuel fuel n l)).
Proof.
  induction fuel as [|fuel IH]; intros l Hn; [by split; constructor|].
  destruct l as [|x l]; [by split; constructor|].
  change (chunks_fuel (S fuel) n (x :: l))
    with (take n (x :: l) :: chunks_fuel fuel n (drop n (x :: l))).
  destruct (IH (drop n (x :: l)) Hn) as [IH1 IH2]. split.
  - constructor; [|done]. rewrite length_take. simpl. lia.
  - destruct (chunks_fuel fuel n (drop n (x :: l))) as [|c cs] eqn:E;
      [constructor|].
    change (removelast (?a :: c :: cs)) with (a :: removelast (c :: cs)).
    constructor; [|done]. rewrite length_take.
    destruct fuel; [done|]. destruct (drop n (x :: l)) eqn:E'; [done|].
    apply (f_equal length) in E'. rewrite length_drop in E'. simpl in *. lia.
Qed.

Lemma concat_whole_chunks {A} (n : nat) (l : list A) :
  (0 < n)%nat → concat (whole_chunks n l) = take (n * (length l / n)) l.
Proof. intros. by apply concat_chunks. Qed.

Lemma length_concat_whole_chunks {A} (n : nat) (l : list A) :
  (0 < n)%nat → (length (concat (whole_chunks n l)) ≤ length l)%nat.
Proof.
  intros. rewrite concat_whole_chunks by done. rewrite length_take. lia.
Qed.

(** ** Reading the body *)

Lemma stream_no_length r :
  content_length r = None → stream r = (body r, stream_error r).
Proof. unfold stream, announced. by intros ->. Qed.

Lemma stream_complete r s :
  content_length r = Some s →
  int_of_str s = Some (Z.of_nat (length (body r))) →
  stream r = (body r, None).
Proof.
  unfold stream, announced. intros -> ->.
  rewrite (proj2 (Z.leb_le 0 _)) by lia. rewrite Z.leb_refl, Nat2Z.id.
  by rewrite firstn_all.
Qed.

Lemma length_stream r : (length (stream r).1 ≤ length (body r))%nat.
Proof.
  unfold stream. destruct (announced r) as [n|]; [|done].
  destruct (n <=? Z.of_nat (length (body r))); [|done].
  simpl. rewrite length_take. lia.
Qed.

Lemma length_iter_content r :
  (length (concat (iter_content 4096 r).1) ≤ length (body r))%nat.
Proof.
  pose proof (length_stream r). unfold iter_content.
  destruct (stream r).2; simpl.
  - pose proof (length_concat_whole_chunks 4096 (stream r).1). lia.
  - rewrite concat_chunks by lia. done.
Qed.

Lemma overflows_le a b :
  0 <= a <= b → overflows b = false → overflows a = false.
Proof. unfold overflows. intros H Hb. apply Z.leb_gt. apply Z.leb_gt in Hb. lia. Qed.

(** ** One job *)

Section one_job.
Local Open Scope list_scope.

Lemma file_content_lookup (f : gmap (list string) node) h old :
  f !! h = Some (File old) → file_content f h = old.
Proof. unfold file_content. by intros ->. Qed.

(** The chunk loop when no size overflows. *)
Lemma chunk_loop (path file : string) (h : list string) (total : Z) :
  overflows total = false →
  ∀ (cs : list bytes) (d : Z) (w : world) (old : bytes),
  0 <= d →
  overflows (d + Z.of_nat (length (concat cs))) = false →
  fs w !! h = Some (File old) →
  for_acc cs d
    (λ data downloaded,
       let downloaded := downloaded + Z.of_nat (length data) in
       f_write path h data ;;
       size <- size_fstring downloaded total ;;
       pbar_set_postfix file size ;;
       ret downloaded)%py w
  = (Ok (d + Z.of_nat (length (concat cs))),
     {| fs := <[h := File (old ++ concat cs)]> (fs w);
        sent := sent w; pbar_n := pbar_n w;
        trace := trace w ++ chunk_events path file total d cs |}).
Proof.
  intros Htot. induction cs as [|x cs IH]; intros d w old Hd Hov Hold.
  - destruct w as [f s n t]. simpl in *.
    rewrite !app_nil_r, Z.add_0_r, insert_id by done. reflexivity.
  - cbn [for_acc]. unfold bind at 1. unfold bind at 1.
    unfold f_write at 1. cbn beta iota.
    unfold bind at 1. unfold size_fstring at 1.
    assert (overflows (d + Z.of_nat (length x)) = false) as Hx.
    { eapply overflows_le; [|exact Hov]. cbn [concat].
      rewrite length_app, Nat2Z.inj_add. lia. }
    rewrite Hx, Htot. cbn [orb]. unfold ret at 1. cbn beta iota.
    unfold bind at 1. unfold pbar_set_postfix at 1. cbn beta iota.
    unfold ret at 1. cbn beta iota.
    erewrite IH; cycle 1.
    { lia. }
    { cbn [concat] in Hov.
      rewrite length_app, Nat2Z.inj_add, Z.add_assoc in Hov. exact Hov. }
    { simpl. apply lookup_insert_eq. }
    rewrite (file_content_lookup _ _ _ Hold).
    destruct w as [f s n t]. simpl in *.
    rewrite insert_insert_eq, <- !app_assoc. simpl.
    rewrite length_app, Nat2Z.inj_add, Z.add_assoc. reflexivity.
Qed.

(** The chunk loop in general: it writes the pieces in order, one
    postfix after each, until they are used up or a size overflows, which
    happens after a write. *)
Lemma chunk_loop_any (path file : string) (h : list string) (total : Z) :
  ∀ (cs : list bytes) (d : Z) (w : world) (old : bytes),
  fs w !! h = Some (File old) →
  ∃ (k : nat) (evs : list event) (res : result Z),
    for_acc cs d
      (λ data downloaded,
         let downloaded := downloaded + Z.of_nat (length data) in
         f_write path h data ;;
         size <- size_fstring downloaded total ;;
         pbar_set_postfix file size ;;
         ret downloaded)%py w
    = (res,
       {| fs := <[h := File (old ++ concat (take k cs))]> (fs w);
          sent := sent w; pbar_n := pbar_n w;
          trace := trace w ++ evs |}) ∧
    gets evs = [] ∧ prints evs = [] ∧ updates evs = [] ∧
    ((∃ d', res = Ok d') ∧ k = length cs ∨
     res = Raise OverflowError ∧ (0 < k)%nat).
Proof.
  induction cs as [|x cs IH]; intros d w old Hold.
  - exists 0%nat, [], (Ok d). destruct w as [f s n t]. simpl in *.
    rewrite !app_nil_r, insert_id by done.
    split; [done|]. repeat split; try done. left. split; [by eexists|done].
  - cbn [for_acc]. unfold bind at 1. unfold bind at 1.
    unfold f_write at 1. cbn beta iota.
    rewrite (file_content_lookup _ _ _ Hold).
    unfold bind at 1. unfold size_fstring at 1.
    destruct (overflows (d + Z.of_nat (length x)) || overflows total).
    + exists 1%nat, [EvWrite path x], (Raise OverflowError).
      destruct w as [f s n t]. simpl. rewrite app_nil_r.
      split; [done|]. repeat split; try done. right. split; [done|lia].
    + unfold ret at 1. cbn beta iota.
      unfold bind at 1. unfold pbar_set_postfix at 1. cbn beta iota.
      unfold ret at 1. cbn beta iota.
      edestruct (IH (d + Z.of_nat (length x))) as (k & evs & res & -> & Hg & Hp & Hu & Hend).
      { simpl. apply lookup_insert_eq. }
      exists (S k),
        (EvWrite path x :: EvPostfix file (MB (d + Z.of_nat (length x)) total) :: evs),
        res.
      destruct w as [f s n t]. simpl in *.
      rewrite insert_insert_eq, <- !app_assoc. simpl.
      split; [done|]. split; [done|]. split; [done|]. split; [done|].
      destruct Hend as [[Hd ->]|[-> Hk]]; [left|right]; split; try done; lia.
Qed.

Lemma http_error_msg_ok r : ok r = true → http_error_msg r = "".
Proof.
  unfold ok, http_error_msg. intros H%negb_true_iff.
  destruct (400 <=? status_code r) eqn:E1, (status_code r <? 500) eqn:E2,
    (500 <=? status_code r) eqn:E3, (status_code r <? 600) eqn:E4;
    simpl in *; try done; lia.
Qed.

Lemma http_error_msg_not_ok r :
  ok r = false → String.eqb (http_error_msg r) "" = false.
Proof.
  unfold ok, http_error_msg. intros H%negb_false_iff.
  apply String.eqb_neq.
  destruct (400 <=? status_code r) eqn:E1, (status_code r <? 500) eqn:E2,
    (500 <=? status_code r) eqn:E3, (status_code r <? 600) eqn:E4;
    simpl in *; try done; try lia; by destruct (str (status_code r)).
Qed.

Lemma raise_for_status_ok r w :
  ok r = true → raise_for_status r w = (Ok tt, w).
Proof. intros H. unfold raise_for_status. by rewrite http_error_msg_ok. Qed.

Lemma raise_for_status_not_ok r w :
  ok r = false →
  raise_for_status r w = (Raise (RequestException (http_error_msg r)), w).
Proof.
  intros H. unfold raise_for_status. by rewrite http_error_msg_not_ok.
Qed.

Lemma int_total_size r n w :
  total_size_of r = Some n → int (headers_get_content_length r) w = (Ok n, w).
Proof.
  unfold total_size_of, headers_get_content_length, int.
  destruct (content_length r) as [s|]; [intros ->|intros [= <-]]; done.
Qed.

Lemma int_value_error r s w :
  content_length r = Some s → int_of_str s = None →
  int (headers_get_content_length r) w = (Raise (ValueError s), w).
Proof.
  unfold headers_get_content_length, int. by intros -> ->.
Qed.

Lemma open_wb_ok path w :
  can_open (fs w) (components path) →
  open_wb path w =
    (Ok (components path),
     emit (EvOpen path) (set_fs (<[components path := File []]> (fs w)) w)).
Proof.
  intros [Hp Hn]. unfold open_wb. rewrite Hp.
  by destruct (lookup_node (fs w) (components path)) as [[|?]|].
Qed.

Lemma can_open_dec (f : gmap (list string) node) cs :
  can_open f cs ∨ ¬ can_open f cs.
Proof.
  unfold can_open.
  destruct (lookup_node f (removelast cs)) as [[|?]|];
    destruct (lookup_node f cs) as [[|?]|];
    try (by left); right; by intros [? ?].
Qed.

Lemma open_wb_fail path w :
  ¬ can_open (fs w) (components path) →
  open_wb path w = (Raise (OSError (components path)), w).
Proof.
  unfold can_open, open_wb. intros H.
  destruct (lookup_node (fs w) (removelast (components path))) as [[|?]|];
    destruct (lookup_node (fs w) (components path)) as [[|?]|];
    try done; by destruct H.
Qed.

Variables (c : config) (net : network) (j : job) (w : world).

Ltac step H := unfold bind at 1; rewrite H; cbn beta iota.
Ltac start_job Hg :=
  unfold download, try_except_RequestException, bind at 1 2, requests_get;
  rewrite Hg; cbn beta iota zeta.
Ltac close_job :=
  destruct w as [wf ws wn wt];
  repeat (unfold finish, abandon, interrupt, tqdm_write, pbar_update,
          f_write, emit, set_fs, bind, ret, raise, failure_line,
          file_content; simpl);
  rewrite <- ?app_assoc, ?lookup_insert_eq, ?insert_insert_eq, ?app_nil_r;
  try reflexivity.

Lemma download_get_raises msg :
  net (sent w) (api_url c j) = GetRaises msg →
  download c net j w =
    (Ok tt, finish w (fs w)
              [EvGet (api_url c j); EvPrint (failure_line j msg)]).
Proof. intros Hg. start_job Hg. close_job. Qed.

Lemma download_http_error r :
  net (sent w) (api_url c j) = GetReturns r → ok r = false →
  download c net j w =
    (Ok tt, finish w (fs w)
              [EvGet (api_url c j);
               EvPrint (failure_line j (http_error_msg r))]).
Proof.
  intros Hg Hok. start_job Hg. step (raise_for_status_not_ok r). 2: done.
  close_job.
Qed.

Lemma download_value_error r s :
  net (sent w) (api_url c j) = GetReturns r → ok r = true →
  content_length r = Some s → int_of_str s = None →
  download c net j w =
    (Raise (ValueError s), abandon w [EvGet (api_url c j)]).
Proof.
  intros Hg Hok Hs Hint. start_job Hg. step (raise_for_status_ok r). 2: done.
  step (int_value_error r s). 2,3: done. close_job.
Qed.

Lemma download_open_fails r n :
  net (sent w) (api_url c j) = GetReturns r → ok r = true →
  total_size_of r = Some n →
  ¬ can_open (fs w) (handle c j) →
  download c net j w =
    (Raise (OSError (handle c j)), abandon w [EvGet (api_url c j)]).
Proof.
  intros Hg Hok Hn Hno. start_job Hg. step (raise_for_status_ok r). 2: done.
  step (int_total_size r n). 2: done.
  step open_wb_fail. 2: done. close_job.
Qed.

Lemma download_whole r :
  net (sent w) (api_url c j) = GetReturns r → ok r = true →
  total_size_of r = Some 0 → can_open (fs w) (handle c j) →
  download c net j w =
    (Ok tt,
     match (stream r).2 with
     | None =>
         finish w (<[handle c j := File (stream r).1]> (fs w))
           [EvGet (api_url c j); EvOpen (file_path c j);
            EvWrite (file_path c j) (stream r).1]
     | Some msg =>
         finish w (<[handle c j := File []]> (fs w))
           [EvGet (api_url c j); EvOpen (file_path c j);
            EvPrint (failure_line j msg)]
     end).
Proof.
  intros Hg Hok Hn Ho. start_job Hg. step (raise_for_status_ok r). 2: done.
  step (int_total_size r 0). 2: done.
  step open_wb_ok. 2: done. cbn [Z.eqb].
  unfold response_content. destruct (stream r).2; close_job.
Qed.

Lemma download_chunked r n :
  net (sent w) (api_url c j) = GetReturns r → ok r = true →
  total_size_of r = Some n → n ≠ 0 →
  overflows n = false →
  overflows (Z.of_nat (length (body r))) = false →
  can_open (fs w) (handle c j) →
  download c net j w =
    (Ok tt,
     finish w
       (<[handle c j := File (concat (iter_content 4096 r).1)]> (fs w))
       ([EvGet (api_url c j); EvOpen (file_path c j)]
        ++ chunk_events (file_path c j) (file_name j) n 0
             (iter_content 4096 r).1
        ++ match (stream r).2 with
           | None => []
           | Some msg => [EvPrint (failure_line j msg)]
           end)).
Proof.
  intros Hg Hok Hn Hn0 Hov Hovb Ho. start_job Hg.
  step (raise_for_status_ok r). 2: done.
  step (int_total_size r n). 2: done.
  step open_wb_ok. 2: done.
  apply Z.eqb_neq in Hn0. rewrite Hn0.
  unfold bind at 1, for_gen, bind at 1.
  erewrite chunk_loop; cycle 1.
  { done. }
  { lia. }
  { eapply overflows_le; [|exact Hovb].
    pose proof (length_iter_content r). lia. }
  { simpl. apply lookup_insert_eq. }
  unfold iter_content. destruct (stream r).2; close_job.
Qed.

(** A size that overflows ends the job after the first piece is
    written. *)
Lemma download_overflow r n x cs :
  net (sent w) (api_url c j) = GetReturns r → ok r = true →
  total_size_of r = Some n → overflows n = true →
  (iter_content 4096 r).1 = x :: cs →
  can_open (fs w) (handle c j) →
  download c net j w =
    (Raise OverflowError,
     interrupt w (<[handle c j := File x]> (fs w))
       [EvGet (api_url c j); EvOpen (file_path c j);
        EvWrite (file_path c j) x]).
Proof.
  intros Hg Hok Hn Hov Hcs Ho. start_job Hg.
  step (raise_for_status_ok r). 2: done.
  step (int_total_size r n). 2: done.
  step open_wb_ok. 2: done.
  assert ((n =? 0) = false) as ->.
  { apply Z.eqb_neq. intros ->. done. }
  unfold bind at 1, for_gen, bind at 1. rewrite Hcs.
  cbn [for_acc]. unfold bind at 1, bind at 1, f_write at 1.
  cbn beta iota. unfold bind at 1, size_fstring at 1.
  rewrite Hov, orb_true_r. close_job.
Qed.

End one_job.
(** ** The loop *)

Section loop.
Local Open Scope list_scope.

Lemma gets_app t1 t2 : gets (t1 ++ t2) = gets t1 ++ gets t2.
Proof. apply omap_app. Qed.


Lemma updates_app t1 t2 : updates (t1 ++ t2) = updates t1 ++ updates t2.
Proof. apply omap_app. Qed.



Lemma total_size_of_None r :
  total_size_of r = None →
  ∃ s, content_length r = Some s ∧ int_of_str s = None.
Proof.
  unfold total_size_of. destruct (content_length r) as [s|]; [|done].
  intros H. by exists s.
Qed.

(** A job that reaches the chunk loop: the pieces are written in order
    until they are used up or a size overflows. *)
Lemma download_chunk_loop c net j w r n :
  net (sent w) (api_url c j) = GetReturns r → ok r = true →
  total_size_of r = Some n → n ≠ 0 → can_open (fs w) (handle c j) →
  ∃ (k : nat) (evs : list event),
    gets evs = [] ∧ prints evs = [] ∧ updates evs = [] ∧
    (download c net j w =
       (Ok tt,
        finish w
          (store (fs w) (handle c j)
             (Some (concat (take k (iter_content 4096 r).1))))
          ([EvGet (api_url c j); EvOpen (file_path c j)] ++ evs
           ++ match (stream r).2 with
              | None => []
              | Some msg => [EvPrint (failure_line j msg)]
              end))
     ∨
     download c net j w =
       (Raise OverflowError,
        interrupt w
          (<[handle c j := File (concat (take k (iter_content 4096 r).1))]>
             (fs w))
          ([EvGet (api_url c j); EvOpen (file_path c j)] ++ evs))).
Proof.
  intros Hg Hok Htot Hn0 Ho.
  remember (download c net j w) as R eqn:HR.
  unfold download, try_except_RequestException, bind at 1 2, requests_get in HR.
  rewrite Hg in HR. cbn beta iota zeta in HR.
  unfold bind at 1 in HR. rewrite raise_for_status_ok in HR by done.
  cbn beta iota in HR.
  unfold bind at 1 in HR. rewrite (int_total_size r n) in HR by done.
  cbn beta iota in HR.
  unfold bind at 1 in HR. rewrite open_wb_ok in HR by done.
  cbn beta iota in HR.
  apply Z.eqb_neq in Hn0. rewrite Hn0 in HR.
  unfold bind at 1, for_gen, bind at 1 in HR.
  unfold handle, store.
  match type of HR with
  | context [for_acc ?cs ?d _ ?w0] =>
      destruct (chunk_loop_any (file_path c j) (file_name j)
                  (components (file_path c j)) n cs d w0 [])
        as (k & evs & res & Hloop & Hg' & Hp' & Hu' & Hend);
        [simpl; apply lookup_insert_eq|]
  end.
  cbn zeta in Hloop. rewrite Hloop in HR. clear Hloop.
  exists k, evs. split; [done|]. split; [done|]. split; [done|].
  destruct Hend as [[[d' ->] ->]|[-> Hk]]; [left|right];
    cbn beta iota in HR; subst R.
  - unfold iter_content. destruct (stream r).2;
      destruct w as [wf ws wn wt];
      unfold raise, ret, tqdm_write, pbar_update, bind, finish, emit, set_fs,
        store, failure_line; simpl;
      rewrite insert_insert_eq, <- !app_assoc; reflexivity.
  - destruct w as [wf ws wn wt]. unfold interrupt, emit, set_fs. simpl.
    rewrite insert_insert_eq, <- !app_assoc. reflexivity.
Qed.

(** The body of the loop, whatever happens. *)
Lemma download_any c net j w :
  (∃ b evs,
     download c net j w =
       (Ok tt, finish w (store (fs w) (handle c j) b) evs) ∧
     gets evs = [api_url c j] ∧ updates evs = []) ∨
  (∃ e,
     download c net j w = (Raise e, abandon w [EvGet (api_url c j)]) ∧
     ((∃ s, e = ValueError s) ∨ e = OSError (handle c j))) ∨
  (∃ b evs,
     download c net j w =
       (Raise OverflowError,
        interrupt w (<[handle c j := File b]> (fs w))
          ([EvGet (api_url c j); EvOpen (file_path c j)] ++ evs)) ∧
     gets evs = [] ∧ prints evs = [] ∧ updates evs = []).
Proof.
  destruct (net (sent w) (api_url c j)) as [msg|r] eqn:Hg.
  { left. exists None. eexists. split; [by apply download_get_raises|done]. }
  destruct (ok r) eqn:Hok.
  2:{ left. exists None. eexists.
      split; [by apply download_http_error|done]. }
  destruct (total_size_of r) as [n|] eqn:Htot.
  2:{ apply total_size_of_None in Htot as (s & Hs & Hint). right. left.
      eexists. split; [by eapply download_value_error|]. left. by eexists. }
  destruct (can_open_dec (fs w) (handle c j)) as [Ho|Hno].
  2:{ right. left. eexists. split; [by eapply download_open_fails|].
      by right. }
  destruct (decide (n = 0)) as [->|Hn0].
  { left. rewrite (download_whole c net j w r) by done.
    destruct (stream r).2; eexists (Some _); eexists;
      (split; [reflexivity|done]). }
  destruct (download_chunk_loop c net j w r n Hg Hok Htot Hn0 Ho)
    as (k & evs & Hg' & Hp' & Hu' & [Hrun|Hrun]).
  - left. eexists (Some _), _. split; [exact Hrun|].
    rewrite !gets_app, !updates_app, Hg', Hu'. by destruct (stream r).2.
  - right. right. eexists _, evs. by split.
Qed.
Lemma for_ext {A} (l : list A) (b1 b2 : A → M unit) w :
  (∀ x w', b1 x w' = b2 x w') → for_ l b1 w = for_ l b2 w.
Proof.
  intros H. revert w. induction l as [|x l IH]; intros w; [done|].
  simpl. unfold bind. rewrite H. destruct (b2 x w) as [[[]|e] w']; [apply IH|done].
Qed.

Lemma for_app {A} (l1 l2 : list A) (b : A → M unit) w :
  for_ (l1 ++ l2) b w = (for_ l1 b ;; for_ l2 b)%py w.
Proof.
  revert w. induction l1 as [|x l1 IH]; intros w; [done|].
  simpl. unfold bind in *. destruct (b x w) as [[[]|e] w']; [|done].
  by rewrite IH.
Qed.

Lemma for_singleton {A} (x : A) (b : A → M unit) w : for_ [x] b w = b x w.
Proof. simpl. unfold bind, ret. by destruct (b x w) as [[[]|e] w']. Qed.

Lemma for_list_bind {A B} (l : list A) (f : A → list B) (b : B → M unit) w :
  for_ (l ≫= f) b w = for_ l (λ x, for_ (f x) b) w.
Proof.
  revert w. induction l as [|x l IH]; intros w; [done|].
  change ((x :: l) ≫= f) with (f x ++ (l ≫= f)). rewrite for_app.
  simpl. unfold bind. destruct (for_ (f x) b w) as [[[]|e] w']; [apply IH|done].
Qed.

Lemma run_for_jobs c net w :
  run c net w =
    (os_makedirs (save_dir c) ;;
     tqdm total_tasks "Download Progress" ;;
     for_ jobs (download c net))%py w.
Proof.
  unfold run, bind. destruct (os_makedirs (save_dir c) w) as [[[]|e] w']; [|done].
  destruct (tqdm total_tasks "Download Progress" w') as [[[]|e] w'']; [|done].
  unfold jobs, jobs_of. rewrite for_list_bind. apply for_ext. intros p w1.
  rewrite for_list_bind. apply for_ext. intros sc w2.
  rewrite for_list_bind. apply for_ext. intros el w3.
  by rewrite for_singleton.
Qed.


Lemma lookup_store_ne (f : gmap (list string) node) h b k :
  k ≠ h → store f h b !! k = f !! k.
Proof. intros. destruct b; [by apply lookup_insert_ne|done]. Qed.




(** Any number of iterations, whatever happens. *)
Lemma for_download_any c net : ∀ (l : list job) (w : world),
  ∃ k : nat,
    (k ≤ length l)%nat ∧
    sent (for_ l (download c net) w).2 = (sent w + k)%nat ∧
    gets (trace (for_ l (download c net) w).2)
      = gets (trace w) ++ (api_url c <$> take k l) ∧
    (((for_ l (download c net) w).1 = Ok tt ∧ k = length l ∧
      pbar_n (for_ l (download c net) w).2 = (pbar_n w + k)%nat)
     ∨
     (∃ e, (for_ l (download c net) w).1 = Raise e ∧
           ((∃ s, e = ValueError s) ∨ (∃ p, e = OSError p) ∨
            e = OverflowError) ∧
           S (pbar_n (for_ l (download c net) w).2) = (pbar_n w + k)%nat)).
Proof.
  induction l as [|j l IH]; intros w.
  { exists 0%nat. simpl. rewrite !Nat.add_0_r, app_nil_r.
    split; [done|]. split; [done|]. split; [done|]. by left. }
  cbn [for_]. unfold bind.
  destruct (download_any c net j w)
    as [(b & evs & -> & Hg & Hu)|[(e & -> & He)|(b & evs & -> & Hg & _ & Hu)]].
  - destruct (IH (finish w (store (fs w) (handle c j) b) evs))
      as (k & Hk & Hs & Hgs & Hend).
    exists (S k). cbn [length take fmap list_fmap].
    cbn [finish sent pbar_n trace] in Hs, Hgs, Hend.
    rewrite !gets_app, Hg in Hgs. rewrite <- !app_assoc in Hgs.
    split; [lia|]. split; [lia|]. split; [exact Hgs|].
    destruct Hend as [(-> & -> & ->)|(e & -> & He & Hn)].
    + left. split; [done|]. split; [done|]. lia.
    + right. exists e. split; [done|]. split; [done|]. lia.
  - exists 1%nat.
    cbn [length take fmap list_fmap abandon interrupt sent pbar_n trace snd fst].
    rewrite gets_app, take_0. split; [lia|]. split; [lia|]. split; [done|].
    right. exists e. split; [done|]. split; [|lia].
    destruct He as [He| ->]; [by left|right; left; by eexists].
  - exists 1%nat.
    cbn [length take fmap list_fmap interrupt sent pbar_n trace snd fst].
    rewrite !gets_app, Hg, take_0. split; [lia|]. split; [lia|].
    split; [done|]. right. exists OverflowError. split; [done|].
    split; [|lia]. by right; right.
Qed.

Lemma for_download_frame c net key : ∀ (l : list job) (w : world),
  (∀ j, j ∈ l → key ≠ handle c j) →
  fs (for_ l (download c net) w).2 !! key = fs w !! key.
Proof.
  induction l as [|j l IH]; intros w Hkey; [done|].
  cbn [for_]. unfold bind.
  destruct (download_any c net j w)
    as [(b & evs & -> & _)|[(e & -> & _)|(b & evs & -> & _)]].
  - rewrite IH by (intros j' Hj'; apply Hkey; by right).
    cbn [finish fs]. apply lookup_store_ne. apply Hkey. left.
  - done.
  - cbn [interrupt fs snd]. apply lookup_insert_ne.
    intros Heq. eapply Hkey; [left|done].
Qed.

End loop.
(** ** The whole run *)

Section whole_run.
Local Open Scope list_scope.



Lemma mkdirs_keeps rest : ∀ f pre f' k v,
  mkdirs f pre rest = Some f' → f !! k = Some v → f' !! k = Some v.
Proof.
  induction rest as [|x rest IH]; intros f pre f' k v H Hk; simpl in H.
  - by simplify_eq.
  - destruct (f !! (pre ++ [x])) as [[|?]|] eqn:E; [|done|].
    + by eapply IH.
    + eapply IH; [done|]. rewrite lookup_insert_ne; [done|]. congruence.
Qed.

Lemma mkdirs_existing rest : ∀ f pre,
  (∀ i, (0 < i ≤ length rest)%nat → f !! (pre ++ take i rest) = Some Dir) →
  mkdirs f pre rest = Some f.
Proof.
  induction rest as [|x rest IH]; intros f pre H; [done|]. simpl.
  pose proof (H 1%nat ltac:(simpl; lia)) as H1. simpl in H1.
  rewrite take_0 in H1. rewrite H1. apply IH.
  intros i Hi. rewrite <- app_assoc. apply (H (S i)). simpl. lia.
Qed.



Lemma os_makedirs_start c fs0 f1 :
  save_dir c ≠ "" →
  mkdirs fs0 [] (components (save_dir c)) = Some f1 →
  os_makedirs (save_dir c) (start fs0) = (Ok tt, start f1).
Proof.
  intros Hne H. unfold os_makedirs.
  rewrite (proj2 (String.eqb_neq _ _) Hne). simpl. by rewrite H.
Qed.

Lemma tqdm_start f1 :
  tqdm total_tasks "Download Progress" (start f1) = (Ok tt, bar_world f1).
Proof. reflexivity. Qed.







End whole_run.

(** ** The sample inputs *)










Lemma handle_job0 :
  handle sample_config job0
  = ["data"; "ssp"; "SSP126_avg_temp_daily_2021_2030.tar.gz"].
Proof. reflexivity. Qed.


Lemma overflows_small n : Z.abs n < 2 ^ 53 → overflows n = false.
Proof.
  intros H. unfold overflows. apply Z.leb_gt.
  eapply Z.lt_trans; [exact H|]. reflexivity.
Qed.




Lemma can_open_sample (f : gmap (list string) node) (j : job) :
  table_job j →
  f !! ["data"; "ssp"] = Some Dir →
  f !! handle sample_config j ≠ Some Dir →
  can_open f (handle sample_config j).
Proof. intros Hj Hd. by apply can_open_handle. Qed.

Lemma table_job0 : table_job job0.
Proof. by repeat split. Qed.

Lemma table_job1 : table_job job1.
Proof. by repeat split. Qed.

(** ** Request failures *)



(** C9: when the response has a 4xx or 5xx status, [raise_for_status]
    raises before [open] is reached: the job prints its failure line and
    leaves the whole file system as it was, so no file is created and none
    that exists is emptied or changed. *)
Theorem http_failure_leaves_files_alone
    (c : config) (net : network) (j : job) (w : world) (r : response) :
  net (sent w) (api_url c j) = GetReturns r →
  400 <= status_code r < 600 →
  ok r = false ∧
  raise_for_status r w = (Raise (RequestException (http_error_msg r)), w) ∧
  ∃ w',
    download c net j w = (Ok tt, w') ∧
    fs w' = fs w ∧
    fs w' !! handle c j = fs w !! handle c j ∧
    trace w' =
      (trace w ++ [EvGet (api_url c j);
                   EvPrint (failure_line j (http_error_msg r));
                   EvUpdate (pbar_n w + 1)])%list.
Proof.
  intros Hg Hst.
  assert (ok r = false) as Hok.
  { unfold ok. apply negb_false_iff, andb_true_iff. split; lia. }
  split; [done|]. split; [by apply raise_for_status_not_ok|].
  eexists. split; [by apply download_http_error|]. by repeat split.
Qed.

Lemma http_failure_leaves_files_alone_witness :
  ∃ w',
    download sample_config net_one_404 job1
      {| fs := stale_fs; sent := 1; pbar_n := 1; trace := [] |} = (Ok tt, w') ∧
    fs w' = stale_fs.
Proof.
  destruct (http_failure_leaves_files_alone sample_config net_one_404 job1
              {| fs := stale_fs; sent := 1; pbar_n := 1; trace := [] |}
              (not_found (api_url sample_config job1)))
    as (_ & _ & w' & Hrun & Hfs & _).
  - reflexivity.
  - simpl. lia.
  - exists w'. split; [exact Hrun|exact Hfs].
Defined.

(** ** Saving the body *)

Section chunk_trace.
Local Open Scope list_scope.

Lemma writes_chunk_events path file total cs : ∀ d,
  writes (chunk_events path file total d cs) = (λ data, (path, data)) <$> cs.
Proof.
  induction cs as [|x cs IH]; intros d; [done|].
  cbn [chunk_events]. change (writes (?a :: ?b :: ?t)) with ((path, x) :: writes t).
  by rewrite IH.
Qed.

Lemma postfixes_chunk_events path file total cs : ∀ d,
  postfixes (chunk_events path file total d cs) =
  (λ k, (file, MB (d + Z.of_nat (length (concat (take (S k) cs)))) total))
  <$> seq 0 (length cs).
Proof.
  induction cs as [|x cs IH]; intros d; [done|].
  cbn [chunk_events length seq]. rewrite fmap_cons.
  change (postfixes (EvWrite ?p ?x' :: EvPostfix ?f ?s :: ?t))
    with ((f, s) :: postfixes t).
  rewrite IH. f_equal.
  - cbn [take concat]. by rewrite app_nil_r.
  - rewrite <- fmap_S_seq, <- list_fmap_compose. apply list_fmap_ext.
    intros _ k _. cbn [compose take concat].
    rewrite length_app, Nat2Z.inj_add, Z.add_assoc. reflexivity.
Qed.


Lemma mb_str_is_Some n : Z.abs n < 2 ^ 53 → is_Some (mb_str n).
Proof.
  intros H. unfold mb_str. apply Z.ltb_lt in H. rewrite H. by eexists.
Qed.


End chunk_trace.

(** C4: a 200 answer whose content-length header is [int]-readable and
    announces the length of the body is saved whole: after the job the
    file holds exactly the body and its length is the announced one; the
    body is written by the chunk loop, one write per piece of 4096 bytes
    (the last piece may be shorter, none is empty), the pieces making up
    the body in order.  Only an announced length of 0 takes the other
    branch, which writes the (then empty) body in one call.  The length
    is one whose division by [1024*1024] does not overflow. *)
Theorem known_length_file_equals_body
    (c : config) (net : network) (j : job) (w : world)
    (r : response) (s : string) (n : Z) :
  net (sent w) (api_url c j) = GetReturns r →
  ok r = true →
  stream_error r = None →
  content_length r = Some s →
  int_of_str s = Some n →
  n = Z.of_nat (length (body r)) →
  overflows n = false →
  can_open (fs w) (handle c j) →
  ∃ w',
    download c net j w = (Ok tt, w') ∧
    fs w' !! handle c j = Some (File (body r)) ∧
    Z.of_nat (length (file_content (fs w') (handle c j))) = n ∧
    writes (drop (length (trace w)) (trace w')) =
      (if n =? 0 then [(file_path c j, body r)]
       else (λ data, (file_path c j, data)) <$> chunks 4096 (body r)) ∧
    concat (chunks 4096 (body r)) = body r ∧
    Forall (λ data, (0 < length data ≤ 4096)%nat) (chunks 4096 (body r)) ∧
    Forall (λ data, length data = 4096%nat) (removelast (chunks 4096 (body r))).
Proof.
  intros Hg Hok Hse Hcl Hint Hn Hov Ho.
  assert (total_size_of r = Some n) as Htot.
  { unfold total_size_of. by rewrite Hcl. }
  assert (stream r = (body r, None)) as Hst.
  { apply (stream_complete r s); [done|]. by rewrite Hint, Hn. }
  assert (∃ evs,
            download c net j w =
              (Ok tt, finish w (<[handle c j := File (body r)]> (fs w)) evs) ∧
            writes evs =
              (if n =? 0 then [(file_path c j, body r)]
               else (λ data, (file_path c j, data)) <$> chunks 4096 (body r)))
    as (evs & Hrun & Hw).
  { destruct (Z.eqb_spec n 0) as [->|Hn0].
    - eexists. rewrite (download_whole c net j w r), Hst by done. done.
    - eexists. rewrite (download_chunked c net j w r n) by (done || congruence).
      unfold iter_content. rewrite Hst. cbn [fst snd].
      rewrite concat_chunks by lia.
      split; [done|]. rewrite app_nil_r.
      change (writes (?a :: ?b :: ?t)) with (writes t).
      apply writes_chunk_events. }
  eexists. split; [exact Hrun|]. cbn [finish fs trace].
  unfold file_content. rewrite lookup_insert_eq.
  split; [done|]. split; [done|]. split.
  { rewrite drop_app_length. unfold writes in *. rewrite omap_app.
    rewrite Hw. simpl. by rewrite app_nil_r. }
  split; [by apply concat_chunks; lia|].
  apply (chunks_fuel_sizes 4096 (length (body r)) (body r)). lia.
Qed.

Lemma known_length_file_equals_body_witness :
  ∃ w',
    download sample_config net_sized job0 (start stale_fs) = (Ok tt, w') ∧
    fs w' !! handle sample_config job0 = Some (File sample_body) ∧
    Z.of_nat (length (file_content (fs w') (handle sample_config job0))) = 5.
Proof.
  destruct (known_length_file_equals_body sample_config net_sized job0
              (start stale_fs) (ok_resp (Some "5") sample_body) "5" 5)
    as (w' & Hrun & Hfile & Hlen & _).
  - reflexivity.
  - reflexivity.
  - reflexivity.
  - reflexivity.
  - reflexivity.
  - reflexivity.
  - reflexivity.
  - split; [reflexivity|]. vm_compute. discriminate.
  - exists w'. split; [exact Hrun|]. split; [exact Hfile|exact Hlen].
Defined.

(** C5: a 200 answer without a content-length header is read whole and
    written by a single [write]: the job's events are the request, the
    [open], one write of the entire body and the counter update, and the
    file then holds exactly the body. *)
Theorem no_length_body_written_at_once
    (c : config) (net : network) (j : job) (w : world) (r : response) :
  net (sent w) (api_url c j) = GetReturns r →
  ok r = true →
  stream_error r = None →
  content_length r = None →
  can_open (fs w) (handle c j) →
  response_content r w = (Ok (body r), w) ∧
  ∃ w',
    download c net j w = (Ok tt, w') ∧
    trace w' =
      (trace w ++ [EvGet (api_url c j); EvOpen (file_path c j);
                   EvWrite (file_path c j) (body r);
                   EvUpdate (pbar_n w + 1)])%list ∧
    fs w' !! handle c j = Some (File (body r)).
Proof.
  intros Hg Hok Hse Hcl Ho.
  assert (stream r = (body r, None)) as Hst.
  { by rewrite stream_no_length, Hse. }
  split.
  { unfold response_content. by rewrite Hst. }
  assert (total_size_of r = Some 0) as Htot.
  { unfold total_size_of. by rewrite Hcl. }
  eexists. rewrite (download_whole c net j w r), Hst by done.
  cbn [fst snd]. split; [done|]. cbn [finish fs trace].
  rewrite lookup_insert_eq. done.
Qed.

Lemma no_length_body_written_at_once_witness :
  ∃ w',
    download sample_config net_plain job0 (start stale_fs) = (Ok tt, w') ∧
    fs w' !! handle sample_config job0 = Some (File sample_body).
Proof.
  destruct (no_length_body_written_at_once sample_config net_plain job0
              (start stale_fs) (ok_resp None sample_body))
    as (_ & w' & Hrun & _ & Hfile).
  - reflexivity.
  - reflexivity.
  - reflexivity.
  - reflexivity.
  - split; [reflexivity|]. vm_compute. discriminate.
  - exists w'. split; [exact Hrun|exact Hfile].
Defined.

(** ** The progress display *)




(** ** Running again *)



(** ** Exceptions that are not request exceptions *)


Lemma chunks_nonempty {A} (n : nat) (l : list A) :
  l ≠ [] → ∃ x cs, chunks n l = x :: cs.
Proof. destruct l; [done|]. intros _. unfold chunks. simpl. eauto. Qed.

Lemma overflows_large n : overflows n = true → 4096 <= Z.abs n.
Proof.
  unfold overflows. intros H%Z.leb_le.
  eapply Z.le_trans; [|exact H]. by vm_compute.
Qed.

(** With a length that overflows and 4096 bytes of body, the chunk loop
    gets a first piece. *)
Lemma first_piece r n :
  total_size_of r = Some n → overflows n = true →
  (4096 ≤ length (body r))%nat →
  ∃ x cs, (iter_content 4096 r).1 = x :: cs.
Proof.
  intros Htot Hov%overflows_large Hlen.
  assert (4096 ≤ length (stream r).1)%nat as Hst.
  { unfold stream, announced. unfold total_size_of in Htot.
    destruct (content_length r) as [s|]; [|done]. rewrite Htot.
    destruct (Z.leb_spec 0 n); [|done].
    destruct (Z.leb_spec n (Z.of_nat (length (body r)))); [|done].
    cbn [fst]. rewrite length_take. lia. }
  unfold iter_content. destruct (stream r).2; cbn [fst].
  - apply chunks_nonempty. intros Hnil%(f_equal length).
    rewrite length_take in Hnil. cbn [length] in Hnil.
    pose proof (Nat.div_le_lower_bound (length (stream r).1) 4096 1
                  ltac:(lia) ltac:(lia)).
    nia.
  - apply chunks_nonempty. intros Hnil. rewrite Hnil in Hst.
    cbn [length] in Hst. lia.
Qed.

Lemma long_body_4096 : (4096 ≤ length long_body)%nat.
Proof. unfold long_body. rewrite length_replicate. lia. Qed.



(** * More on the code *)

Section iterations.
Local Open Scope list_scope.

(** X1: the number of iterations of the three nested loops is the product
    of the sizes of the three tables, whatever the tables hold; the total
    given to the progress bar is that number. *)
Theorem iterations_are_the_product
    (ps : list Notebook.period) (scs els : list (string * string)) :
  length (jobs_of ps scs els) = (length ps * length scs * length els)%nat ∧
  total_tasks = length jobs.
Proof.
  split; [|reflexivity]. unfold jobs_of.
  rewrite (length_bind_uniform _ (length scs * length els)); [lia|].
  intros p. rewrite (length_bind_uniform _ (length els)); [lia|].
  intros sc. by rewrite (length_bind_uniform _ 1); [lia|].
Qed.

(** X2: the loops run with the period outermost and the element
    innermost: the iteration for the [p]-th period, [s]-th scenario and
    [e]-th element is iteration number [(p * #scenarios + s) * #elements + e],
    and it binds the labels and codes of exactly these three entries. *)
Theorem iteration_order
    (ps : list Notebook.period) (scs els : list (string * string))
    (p s e : nat) (per : Notebook.period) (sc el : string * string) :
  ps !! p = Some per → scs !! s = Some sc → els !! e = Some el →
  jobs_of ps scs els !! ((p * length scs + s) * length els + e)%nat =
    Some {| job_period := per;
            scenario_label := sc.1; rpt_val := sc.2;
            element_label := el.1; elem_val := el.2 |}.
Proof. apply jobs_of_lookup. Qed.

Lemma iteration_order_witness :
  jobs !! 26%nat =
    Some {| job_period :=
              {| Notebook.st_year := "2021"; Notebook.ed_year := "2030" |};
            scenario_label := "SSP5_8.5"; rpt_val := "SSP585";
            element_label := "avg_wind_speed"; elem_val := "WS" |}.
Proof.
  apply (iteration_order Notebook.periods Notebook.ssp_scenarios
           Notebook.basic_elements 0 3 5
           {| Notebook.st_year := "2021"; Notebook.ed_year := "2030" |}
           ("SSP5_8.5", "SSP585") ("avg_wind_speed", "WS")); reflexivity.
Defined.

End iterations.

(** ** URLs and paths *)

Lemma length_append (a b : string) :
  String.length (a ++ b) = (String.length a + String.length b)%nat.
Proof.
  induction a as [|x a IH]; [done|].
  change (S (String.length (a ++ b)) = S (String.length a + String.length b)).
  by rewrite IH.
Qed.

Lemma append_inv_tail (a : string) : ∀ s1 s2 : string,
  s1 ++ a = s2 ++ a → s1 = s2.
Proof.
  induction s1 as [|x s1 IH]; intros [|y s2] H.
  - done.
  - apply (f_equal String.length) in H. rewrite !length_append in H.
    simpl in H. lia.
  - apply (f_equal String.length) in H. rewrite !length_append in H.
    simpl in H. lia.
  - change (String x (s1 ++ a) = String y (s2 ++ a)) in H.
    injection H as -> H. f_equal. by apply IH.
Qed.

Lemma append_inv_head (a : string) (s1 s2 : string) :
  a ++ s1 = a ++ s2 → s1 = s2.
Proof.
  induction a as [|x a IH]; [done|].
  change (String x (a ++ s1) = String x (a ++ s2) → s1 = s2).
  intros [= H]. by apply IH.
Qed.

Lemma api_url_token c j :
  api_url c j = api_url {| save_dir := ""; auth_key := "" |} j ++ auth_key c.
Proof.
  unfold api_url, query_string, params, join.
  cbn [fmap list_fmap String.concat fst snd auth_key].
  rewrite !append_assoc. reflexivity.
Qed.

Lemma query_fields c j :
  table_job j → split "&" (auth_key c) = [auth_key c] →
  split "&" (query_string c j) =
    (λ kv : string * string, kv.1 ++ "=" ++ kv.2) <$> params c j.
Proof.
  intros (Hr & He & Hs & Hd & _) Hkey.
  unfold query_string. rewrite split_join; [reflexivity| |done].
  unfold st_year_val, ed_year_val in *.
  repeat apply Forall_cons_2; try apply Forall_nil_2; try reflexivity;
    cbn [fst snd]; by repeat apply split_single_app.
Qed.

Lemma NoDup_query_keys :
  NoDup ((λ j, (rpt_val j, elem_val j, st_year_val j, ed_year_val j)) <$> jobs).
Proof. apply (bool_decide_unpack _). by vm_compute. Qed.

(** X3: whatever the token, two different jobs never ask for the same
    URL. *)
Theorem api_url_injective (c : config) (j1 j2 : job) :
  j1 ∈ jobs → j2 ∈ jobs → api_url c j1 = api_url c j2 → j1 = j2.
Proof.
  intros H1 H2 Heq. rewrite (api_url_token c j1), (api_url_token c j2) in Heq.
  apply append_inv_tail in Heq.
  assert (∀ j, api_url {| save_dir := ""; auth_key := "" |} j
               = (Notebook.base_url ++ "?")
                 ++ query_string {| save_dir := ""; auth_key := "" |} j)
    as Hu by (intros j; unfold api_url; by rewrite append_assoc).
  rewrite !Hu in Heq.
  apply (append_inv_head (Notebook.base_url ++ "?")) in Heq.
  apply (f_equal (split "&")) in Heq.
  pose proof (proj1 (Forall_forall _ _) jobs_table_job j1 H1) as Ht1.
  pose proof (proj1 (Forall_forall _ _) jobs_table_job j2 H2) as Ht2.
  rewrite !query_fields in Heq by done.
  cbn [fmap list_fmap params fst snd] in Heq.
  injection Heq as Hr He Hs Hd.
  change ("" ++ ?x) with x in Hr, He, Hs, Hd.
  apply list_elem_of_lookup in H1 as [i1 H1].
  apply list_elem_of_lookup in H2 as [i2 H2].
  assert (i1 = i2) as ->; [|congruence].
  eapply NoDup_lookup; [exact NoDup_query_keys| |].
  - rewrite list_lookup_fmap, H1. reflexivity.
  - rewrite list_lookup_fmap, H2. simpl. by rewrite Hr, He, Hs, Hd.
Qed.

Lemma api_url_injective_witness :
  (job0 ∈ jobs ∧ job1 ∈ jobs) ∧
  (api_url notebook_config job0 = api_url notebook_config job1 → job0 = job1).
Proof.
  assert (job0 ∈ jobs) as H0
    by exact (list_elem_of_lookup_2 _ _ _ jobs_lookup_job0).
  assert (job1 ∈ jobs) as H1
    by exact (list_elem_of_lookup_2 _ _ _ jobs_lookup_job1).
  split; [by split|].
  exact (api_url_injective notebook_config job0 job1 H0 H1).
Defined.

(** X4: every job's file lies directly in the output directory: its
    resolved path is the directory's path followed by the file name, and
    it is the same whether or not [save_dir] is written with a trailing
    slash. *)
Theorem output_files_lie_in_save_dir (c : config) (j : job) :
  j ∈ jobs →
  handle c j = (components (save_dir c) ++ [file_name j])%list ∧
  removelast (handle c j) = components (save_dir c) ∧
  handle {| save_dir := save_dir c ++ "/"; auth_key := auth_key c |} j
    = handle c j.
Proof.
  intros Hj.
  pose proof (proj1 (Forall_forall _ _) jobs_table_job j Hj) as Htj.
  rewrite !handle_table_job by done. split; [done|].
  split; [apply removelast_last|]. cbn [save_dir].
  change (save_dir c ++ "/") with (save_dir c ++ String "/" "").
  rewrite components_app_sep. change (components "") with (@nil string).
  by rewrite app_nil_r.
Qed.

Lemma output_files_lie_in_save_dir_witness :
  handle notebook_config job0 =
    ["Users"; "lsj"; "NAS"; "SSP"; "South_Korea";
     "SSP126_avg_temp_daily_2021_2030.tar.gz"].
Proof.
  refine (proj1 (output_files_lie_in_save_dir notebook_config job0 _)).
  exact (list_elem_of_lookup_2 _ _ _ jobs_lookup_job0).
Defined.

(** ** One job, whatever happens *)

(** X5: a job changes the file system at its own path at most: every
    other file and directory is after the job what it was before,
    whatever the server answers and however the job ends. *)
Theorem job_touches_its_own_path_only
    (c : config) (net : network) (j : job) (w : world) (key : list string) :
  key ≠ handle c j →
  fs (download c net j w).2 !! key = fs w !! key.
Proof.
  intros Hkey.
  destruct (download_any c net j w)
    as [(b & evs & -> & _)|[(e & -> & _)|(b & evs & -> & _)]].
  - simpl. by apply lookup_store_ne.
  - done.
  - simpl. by apply lookup_insert_ne.
Qed.

Lemma job_touches_its_own_path_only_witness :
  fs (download sample_config net_plain job1 (start stale_fs)).2
    !! handle sample_config job0
  = Some (File [x01; x02]).
Proof.
  rewrite (job_touches_its_own_path_only sample_config net_plain job1
             (start stale_fs) (handle sample_config job0)).
  - reflexivity.
  - vm_compute. discriminate.
Defined.


(** ** Failures after the file is opened *)





(** X8: when [requests.get] itself raises (no connection, a timeout), the
    job prints its failure line with the exception's message, advances the
    counter, and leaves the whole file system as it was. *)
Theorem failed_connection_leaves_files_alone
    (c : config) (net : network) (j : job) (w : world) (msg : string) :
  net (sent w) (api_url c j) = GetRaises msg →
  ∃ w',
    download c net j w = (Ok tt, w') ∧
    fs w' = fs w ∧
    trace w' =
      (trace w ++ [EvGet (api_url c j);
                   EvPrint ("Download failed: " ++ file_name j ++ " - " ++ msg);
                   EvUpdate (pbar_n w + 1)])%list.
Proof.
  intros Hg. eexists. split; [by apply download_get_raises|]. done.
Qed.

Lemma failed_connection_leaves_files_alone_witness :
  ∃ w',
    download sample_config net_down job0 (start stale_fs) = (Ok tt, w') ∧
    fs w' = stale_fs.
Proof.
  destruct (failed_connection_leaves_files_alone sample_config net_down job0
              (start stale_fs) "Connection refused")
    as (w' & Hrun & Hfs & _).
  - reflexivity.
  - exists w'. split; [exact Hrun|exact Hfs].
Defined.

(** X9: a job that is told a length so large that its division by
    [1024*1024] overflows, and that gets a first piece of the body, ends
    with [OverflowError] when the size text is built for that piece: the
    file has been opened and holds the first piece only, whatever it held
    before; the display is not set, nothing is printed and the counter is
    not advanced. *)
Theorem oversized_length_stops_the_job
    (c : config) (net : network) (j : job) (w : world)
    (r : response) (n : Z) :
  net (sent w) (api_url c j) = GetReturns r →
  ok r = true →
  total_size_of r = Some n →
  overflows n = true →
  (4096 ≤ length (body r))%nat →
  can_open (fs w) (handle c j) →
  ∃ w' x,
    download c net j w = (Raise OverflowError, w') ∧
    head (iter_content 4096 r).1 = Some x ∧
    fs w' !! handle c j = Some (File x) ∧
    trace w' =
      (trace w ++ [EvGet (api_url c j); EvOpen (file_path c j);
                   EvWrite (file_path c j) x])%list ∧
    pbar_n w' = pbar_n w.
Proof.
  intros Hg Hok Htot Hov Hlen Ho.
  destruct (first_piece r n Htot Hov Hlen) as (x & cs & Hcs).
  eexists _, x. split.
  { by apply (download_overflow c net j w r n x cs). }
  rewrite Hcs. cbn [interrupt fs trace pbar_n].
  by rewrite lookup_insert_eq.
Qed.

Lemma oversized_length_stops_the_job_witness :
  ∃ w',
    download sample_config net_huge job1
      {| fs := stale_fs; sent := 1; pbar_n := 1; trace := [] |}
    = (Raise OverflowError, w') ∧
    fs w' !! handle sample_config job1 = Some (File (take 4096 long_body)) ∧
    pbar_n w' = 1%nat.
Proof.
  destruct (oversized_length_stops_the_job sample_config net_huge job1
              {| fs := stale_fs; sent := 1; pbar_n := 1; trace := [] |}
              (ok_resp (Some huge_length) long_body) (10 ^ 320 - 1))
    as (w' & x & Hrun & Hx & Hfile & _ & Hn).
  - reflexivity.
  - reflexivity.
  - by vm_compute.
  - by vm_compute.
  - exact long_body_4096.
  - split; [reflexivity|]. vm_compute. discriminate.
  - exists w'. split; [exact Hrun|]. split; [|exact Hn].
    vm_compute in Hx. injection Hx as <-. exact Hfile.
Defined.

(** ** The output directory *)


(** X10: [os.makedirs(save_dir, exist_ok=True)] only adds directories:
    when it succeeds, every file and directory that existed is still
    there unchanged, the directory exists, and calling it again succeeds
    and changes nothing. *)
Theorem makedirs_only_adds_and_is_repeatable
    (name : string) (w w1 : world) :
  os_makedirs name w = (Ok tt, w1) →
  (∀ k v, fs w !! k = Some v → fs w1 !! k = Some v) ∧
  lookup_node (fs w1) (components name) = Some Dir ∧
  trace w1 = trace w ∧
  os_makedirs name w1 = (Ok tt, w1).
Proof.
  unfold os_makedirs. intros H.
  destruct (String.eqb name ""); [done|].
  destruct (mkdirs (fs w) [] (components name)) as [f|] eqn:Hmk; [|done].
  injection H as <-. cbn [set_fs fs trace].
  split; [intros k v; by eapply mkdirs_keeps|].
  split; [by eapply mkdirs_dir|]. split; [done|].
  rewrite mkdirs_existing; [done|].
  intros i Hi. by apply (proj1 (mkdirs_spec _ _ _ _ Hmk) i).
Qed.

Lemma makedirs_only_adds_and_is_repeatable_witness :
  os_makedirs "/data/ssp/" (start sample_fs) = (Ok tt, start sample_fs) ∧
  os_makedirs "/data/ssp/new" (start stale_fs)
  = (Ok tt, start (<[ ["data"; "ssp"; "new"] := Dir ]> stale_fs)) ∧
  <[ ["data"; "ssp"; "new"] := Dir ]> stale_fs
    !! handle sample_config job0 = Some (File [x01; x02]).
Proof.
  assert (os_makedirs "/data/ssp/new" (start stale_fs)
          = (Ok tt, start (<[ ["data"; "ssp"; "new"] := Dir ]> stale_fs)))
    as Hrun by reflexivity.
  split; [reflexivity|]. split; [exact Hrun|].
  apply (proj1 (makedirs_only_adds_and_is_repeatable _ _ _ Hrun)).
  reflexivity.
Defined.




(** ** Every run *)

Lemma run_makedirs_raises c net fs0 e w :
  os_makedirs (save_dir c) (start fs0) = (Raise e, w) →
  run c net (start fs0) = (Raise e, start fs0) ∧ ∃ p, e = OSError p.
Proof.
  intros H. assert (w = start fs0 ∧ ∃ p, e = OSError p) as [-> Hp].
  { unfold os_makedirs in H. destruct (String.eqb (save_dir c) "").
    - injection H as <- <-. split; [done|]. by eexists.
    - destruct (mkdirs _ _ _); [done|]. injection H as <- <-.
      split; [done|]. by eexists. }
  split; [|done]. unfold run, bind. by rewrite H.
Qed.

Lemma run_makedirs_returns c net fs0 w :
  os_makedirs (save_dir c) (start fs0) = (Ok tt, w) →
  ∃ f1, mkdirs fs0 [] (components (save_dir c)) = Some f1 ∧
        run c net (start fs0) = for_ jobs (download c net) (bar_world f1).
Proof.
  intros H. unfold os_makedirs in H.
  destruct (String.eqb (save_dir c) "") eqn:Hne; [done|].
  cbn [start fs] in H.
  destruct (mkdirs fs0 [] (components (save_dir c))) as [f1|] eqn:Hmk; [|done].
  exists f1. split; [done|]. rewrite run_for_jobs. unfold bind.
  rewrite (os_makedirs_start c fs0 f1); [|by apply String.eqb_neq|done].
  by rewrite tqdm_start.
Qed.

(** X12: however the servers answer and whatever the directory holds, a
    run ends normally with the counter at 224, or with a [ValueError], an
    [OSError] or an [OverflowError] and the counter below 224; a request
    exception never ends it.  At every end the requests sent are the URLs
    of the first jobs, in order and once each, and at most one of them is
    not counted. *)
Theorem run_ends_normally_or_with_one_of_three_errors
    (c : config) (net : network) (fs0 : gmap (list string) node) :
  ∃ k : nat,
    (k ≤ 224)%nat ∧
    sent (run c net (start fs0)).2 = k ∧
    gets (trace (run c net (start fs0)).2) = api_url c <$> take k jobs ∧
    (pbar_n (run c net (start fs0)).2 ≤ k ≤ S (pbar_n (run c net (start fs0)).2))%nat ∧
    (((run c net (start fs0)).1 = Ok tt ∧
      pbar_n (run c net (start fs0)).2 = 224%nat)
     ∨
     (∃ e, (run c net (start fs0)).1 = Raise e ∧
           ((∃ s, e = ValueError s) ∨ (∃ p, e = OSError p) ∨
            e = OverflowError) ∧
           (pbar_n (run c net (start fs0)).2 < 224)%nat)).
Proof.
  destruct (os_makedirs (save_dir c) (start fs0)) as [[[]|e] w0] eqn:Hmk.
  2:{ destruct (run_makedirs_raises c net fs0 e w0 Hmk) as [-> [p ->]].
      exists 0%nat. cbn [fst snd start sent pbar_n trace].
      split; [lia|]. split; [done|]. split; [done|].
      split; [lia|]. right. eexists. split; [done|]. split; [|lia].
      right. left. by eexists. }
  destruct (run_makedirs_returns c net fs0 w0 Hmk) as (f1 & _ & ->).
  destruct (for_download_any c net jobs (bar_world f1))
    as (k & Hk & Hs & Hg & Hend).
  change (length jobs) with 224%nat in *.
  exists k. split; [done|]. split; [exact Hs|]. split; [exact Hg|].
  cbn [bar_world pbar_n] in Hend.
  destruct Hend as [(Hr & -> & Hn)|(e & Hr & He & Hn)].
  - split; [lia|]. left. split; [exact Hr|]. exact Hn.
  - split; [lia|]. right. exists e. split; [exact Hr|]. split; [done|]. lia.
Qed.



(** ** How often the display changes *)

Section display.
Local Open Scope list_scope.

Lemma length_chunks_fuel {A} (n : nat) : ∀ fuel (l : list A),
  (0 < n)%nat → (length l ≤ fuel)%nat →
  length (chunks_fuel fuel n l) = ((length l + n - 1) / n)%nat.
Proof.
  induction fuel as [|fuel IH]; intros l Hn Hl.
  - destruct l; [|simpl in Hl; lia]. simpl.
    symmetry. apply Nat.div_small. lia.
  - destruct l as [|x l].
    { simpl. symmetry. apply Nat.div_small. lia. }
    change (chunks_fuel (S fuel) n (x :: l))
      with (take n (x :: l) :: chunks_fuel fuel n (drop n (x :: l))).
    cbn [length]. rewrite IH; [|done|rewrite length_drop; simpl in *; lia].
    rewrite length_drop. cbn [length].
    destruct (Nat.le_gt_cases n (S (length l))) as [Hle|Hgt].
    + replace (S (length l) + n - 1)%nat
        with ((S (length l) - n + n - 1) + 1 * n)%nat by lia.
      rewrite Nat.div_add by lia. lia.
    + replace (S (length l) - n)%nat with 0%nat by lia.
      rewrite (Nat.div_small (0 + n - 1) n) by lia.
      apply (Nat.div_unique _ _ 1 (S (length l) - 1)); lia.
Qed.

Lemma last_seq_0 (n : nat) : last (seq 0 (S n)) = Some n.
Proof. rewrite seq_S. by rewrite last_snoc. Qed.

End display.

(** X14: in a download whose announced length is the length of the body
    and not zero (below [2^53] bytes), the display is set once for every
    4096 bytes begun, and when the job ends it shows the job's file name
    and the whole length against itself. *)
Theorem display_ends_at_bytes_received
    (c : config) (net : network) (j : job) (w : world)
    (r : response) (s : string) (n : Z) :
  net (sent w) (api_url c j) = GetReturns r →
  ok r = true →
  content_length r = Some s →
  int_of_str s = Some n →
  n = Z.of_nat (length (body r)) →
  n ≠ 0 →
  n < 2 ^ 53 →
  can_open (fs w) (handle c j) →
  ∃ w' t,
    download c net j w = (Ok tt, w') ∧
    length (postfixes (drop (length (trace w)) (trace w')))
      = ((length (body r) + 4095) / 4096)%nat ∧
    pbar_postfix w' = Some (file_name j, MB n n) ∧
    mb_str n = Some t ∧
    characters (MB n n) = Some (t ++ "/" ++ t ++ " MB").
Proof.
  intros Hg Hok Hcl Hint Hn Hn0 Hlt Ho.
  assert (total_size_of r = Some n) as Htot.
  { unfold total_size_of. by rewrite Hcl. }
  assert (stream r = (body r, None)) as Hst.
  { apply (stream_complete r s); [done|]. by rewrite Hint, Hn. }
  assert (Z.abs n < 2 ^ 53) as Habs by lia.
  destruct (mb_str_is_Some n Habs) as [t Ht].
  eexists _, t. rewrite (download_chunked c net j w r n); try done; cycle 1.
  { by apply overflows_small. }
  { apply overflows_small. lia. }
  unfold iter_content. rewrite Hst. cbn [fst snd].
  split; [done|]. unfold pbar_postfix. cbn [finish trace].
  rewrite drop_app_length, app_nil_r.
  unfold postfixes. rewrite !omap_app.
  change (omap _ (chunk_events ?p ?f ?t ?d ?cs))
    with (postfixes (chunk_events p f t d cs)).
  cbn [omap list_omap]. rewrite app_nil_r.
  rewrite postfixes_chunk_events. cbn [app].
  assert (length (chunks 4096 (body r))
          = ((length (body r) + 4095) / 4096)%nat) as Hlen.
  { unfold chunks. rewrite length_chunks_fuel by lia. f_equal. lia. }
  split; [by rewrite length_fmap, length_seq|].
  split; [|split; [done|]].
  - match goal with
    | |- context [seq 0 ?len] => destruct len as [|m] eqn:Hm
    end.
    { exfalso. apply Hn0. rewrite Hn.
      rewrite <- (concat_chunks 4096 (body r)) by lia.
      by rewrite (nil_length_inv _ Hm). }
    rewrite last_app, fmap_last, last_seq_0.
    cbn [fmap option_fmap option_map].
    rewrite <- Hm, firstn_all, concat_chunks by lia.
    by rewrite Z.add_0_l, Hn.
  - unfold characters. cbn [mb_downloaded mb_total]. by rewrite Ht.
Qed.

Lemma display_ends_at_bytes_received_witness :
  ∃ w',
    download sample_config net_sized job0 (start sample_fs) = (Ok tt, w') ∧
    pbar_postfix w'
    = Some ("SSP126_avg_temp_daily_2021_2030.tar.gz", MB 5 5) ∧
    characters (MB 5 5) = Some "0.0/0.0 MB".
Proof.
  destruct (display_ends_at_bytes_received sample_config net_sized job0
              (start sample_fs) (ok_resp (Some "5") sample_body) "5" 5)
    as (w' & t & Hrun & _ & Hpf & _).
  - reflexivity.
  - reflexivity.
  - reflexivity.
  - reflexivity.
  - reflexivity.
  - discriminate.
  - reflexivity.
  - split; [reflexivity|]. vm_compute. discriminate.
  - exists w'. split; [exact Hrun|]. split; [exact Hpf|reflexivity].
Defined.

(** ** What a run leaves alone *)

(** X15: a run changes the file system only at the output directory, the
    directories above it, and the 224 output files: whatever the servers
    answer and however the run ends, everything else is afterwards what it
    was before. *)
Theorem run_touches_only_its_own_paths
    (c : config) (net : network) (fs0 : gmap (list string) node)
    (key : list string) :
  (∀ n, (0 < n ≤ length (components (save_dir c)))%nat →
     key ≠ take n (components (save_dir c))) →
  (∀ j, j ∈ jobs → key ≠ handle c j) →
  fs (run c net (start fs0)).2 !! key = fs0 !! key.
Proof.
  intros Hdir Hfile.
  destruct (os_makedirs (save_dir c) (start fs0)) as [[[]|e] w0] eqn:Hmk.
  - destruct (run_makedirs_returns c net fs0 w0 Hmk) as (f1 & Hf1 & ->).
    rewrite for_download_frame by done. cbn [bar_world fs].
    by apply (proj2 (mkdirs_spec _ _ _ _ Hf1)).
  - by destruct (run_makedirs_raises c net fs0 e w0 Hmk) as [-> _].
Qed.

Lemma run_touches_only_its_own_paths_witness :
  fs (run sample_config net_plain
        (start (<[ ["data"; "notes.txt"] := File [x2a] ]> stale_fs))).2
    !! ["data"; "notes.txt"]
  = Some (File [x2a]).
Proof.
  rewrite (run_touches_only_its_own_paths sample_config net_plain
             (<[ ["data"; "notes.txt"] := File [x2a] ]> stale_fs)
             ["data"; "notes.txt"]).
  - reflexivity.
  - intros n Hn. change (components (save_dir sample_config))
      with ["data"; "ssp"] in *.
    destruct n as [|[|[|n]]]; simpl in Hn; try lia; discriminate.
  - intros j Hj.
    pose proof (proj1 (Forall_forall _ _) jobs_table_job j Hj) as Htj.
    rewrite (handle_table_job sample_config j Htj).
    intros H. apply (f_equal length) in H. discriminate.
Defined.


